(** * paste-api: the paste lifecycle of [src/index.js]

    A shallow embedding of the Express handlers of [src/index.js] and of
    the SQL statements they issue against the [pastes] table, followed by
    the properties of the paste lifecycle.

    Conventions of the model.
    - The table [pastes] is a finite map from the primary key [id] to its
      row; every SQL statement of the source is a function on that map.
    - A handler runs to completion before the next request starts; the
      clock ([NOW()], [Date.now()]) is an argument of each request.
    - Text is [string]; one character of the model is one character of the
      stored text, and JavaScript's [length] agrees with SQL's [LENGTH].
    - [crypto-js] is not part of the repository: its entry points are the
      methods of the class [CryptoJS]. The random bytes drawn by
      [randomBytes(4)] and by [CryptoJS.AES.encrypt] are arguments of the
      create request. *)

From stdpp Require Import gmap strings list fin_maps sorting pretty.
From Stdlib Require Import ZArith Lia.

Local Open Scope Z_scope.

(** ** JavaScript values of the request *)

(** A query or body parameter that is a string or absent ([undefined]). *)
Definition truthy (password : option string) : bool :=
  match password with
  | Some s => negb (String.eqb s "")
  | None => false
  end.

(** The string held by a parameter; read only where the parameter is truthy. *)
Definition str_of (password : option string) : string := default "" password.

(** ** crypto-js *)

Inductive outcome (A : Type) : Type :=
  | Returns (a : A)
  | Throws.
Arguments Returns {A} a.
Arguments Throws {A}.

(** The calls of [CryptoJS] made by the source. [AES_encrypt] takes the
    random salt it draws as its first argument. *)
Class CryptoJS := {
  CipherParams : Type;
  WordArray : Type;
  AES_encrypt : string → string → string → CipherParams;
  CipherParams_toString : CipherParams → string;
  AES_decrypt : string → string → outcome WordArray;
  enc_Utf8_parse : string → WordArray;
  enc_Utf8_stringify : WordArray → outcome string
}.

(** What the library promises: decrypting the serialized cipher text under
    the passphrase it was made with gives back the bytes of the message,
    and the UTF-8 codec is inverted by its decoder. *)
Class CryptoJS_contract (C : CryptoJS) : Prop := {
  AES_decrypt_encrypt : ∀ salt message passphrase,
    AES_decrypt (CipherParams_toString (AES_encrypt salt message passphrase))
                passphrase
    = Returns (enc_Utf8_parse message);
  enc_Utf8_stringify_parse : ∀ message,
    enc_Utf8_stringify (enc_Utf8_parse message) = Returns message
}.

(** ** The table [pastes] *)

Record paste : Type := Paste {
  id : string;
  content : string;
  language : option string;
  expires_at : option Z;
  burn_after_read : bool;
  is_private : bool;
  views : Z;
  created_at : Z;
  deleted : bool;
  is_encrypted : bool
}.

Abbreviation store := (gmap string paste).

(** [views INTEGER]: a 32-bit signed column; PostgreSQL raises
    "integer out of range" instead of wrapping. *)
Definition INT_MAX : Z := 2147483647.

Definition set_content (c : string) (p : paste) : paste :=
  Paste (id p) c (language p) (expires_at p) (burn_after_read p)
        (is_private p) (views p) (created_at p) (deleted p) (is_encrypted p).

Definition set_views (v : Z) (p : paste) : paste :=
  Paste (id p) (content p) (language p) (expires_at p) (burn_after_read p)
        (is_private p) v (created_at p) (deleted p) (is_encrypted p).

Definition set_deleted (d : bool) (p : paste) : paste :=
  Paste (id p) (content p) (language p) (expires_at p) (burn_after_read p)
        (is_private p) (views p) (created_at p) d (is_encrypted p).

(** The columns that no statement of the source assigns after the insert:
    all but [views] and [deleted]. *)
Definition at_birth (p : paste) : paste := set_deleted false (set_views 0 p).

(** [(expires_at IS NULL OR expires_at > NOW())] *)
Definition not_expired (now : Z) (p : paste) : bool :=
  match expires_at p with
  | None => true
  | Some e => now <? e
  end.

(** [(expires_at IS NULL OR expires_at > NOW()) AND NOT deleted] *)
Definition live (now : Z) (p : paste) : bool :=
  not_expired now p && negb (deleted p).

(** [SELECT * FROM pastes WHERE id = ${id} AND (...) AND NOT deleted] *)
Definition select_live (st : store) (now : Z) (id : string) : option paste :=
  match st !! id with
  | Some p => if live now p then Some p else None
  | None => None
  end.

(** [SELECT id FROM pastes WHERE id = ${id} AND NOT deleted] *)
Definition select_not_deleted (st : store) (id : string) : option string :=
  match st !! id with
  | Some p => if negb (deleted p) then Some id else None
  | None => None
  end.

(** [UPDATE pastes SET views = views + 1 WHERE id = ${id}]; [None] when the
    statement raises. *)
Definition update_views (st : store) (id : string) : option store :=
  match st !! id with
  | Some p =>
      if views p + 1 <=? INT_MAX
      then Some (<[id := set_views (views p + 1) p]> st)
      else None
  | None => Some st
  end.

(** [UPDATE pastes SET deleted = true WHERE id = ${id}] *)
Definition update_deleted (st : store) (id : string) : store :=
  alter (set_deleted true) id st.

(** [INSERT INTO pastes (...) VALUES (...)]; [None] on a duplicate key. *)
Definition insert_paste (st : store) (p : paste) : option store :=
  match st !! id p with
  | Some _ => None
  | None => Some (<[id p := p]> st)
  end.

(** The [CASE ... END as content] column of the list and preview queries. *)
Definition sql_content (p : paste) : string :=
  if is_encrypted p then "[Encrypted Content]"
  else String.substring 0 100 (content p)
       +:+ (if (100 <? String.length (content p))%nat then "..." else "").

(** ** Responses *)

(** A row of the list query: [is_encrypted] is not among its columns. *)
Record list_row : Type := ListRow {
  lr_id : string;
  lr_content : string;
  lr_language : option string;
  lr_created_at : Z;
  lr_views : Z;
  lr_is_private : bool;
  lr_burn_after_read : bool;
  lr_expires_at : option Z
}.

(** [paste.is_encrypted] on a row of the list query: the property is
    missing, so the access yields [undefined]. *)
Definition lr_is_encrypted (r : list_row) : option bool := None.

Definition truthy_flag (b : option bool) : bool := default false b.

(** An element of [safePastes]. *)
Record safe_paste : Type := SafePaste {
  sp_row : list_row;
  sp_content : string;
  sp_isPrivate : bool;
  sp_isEncrypted : option bool;
  sp_burnAfterRead : bool;
  sp_createdAt : Z;
  sp_expiresAt : option Z
}.

(** A row of the preview query. *)
Record preview_row : Type := PreviewRow {
  pr_id : string;
  pr_content : string;
  pr_language : option string;
  pr_expires_at : option Z;
  pr_burn_after_read : bool;
  pr_is_private : bool;
  pr_is_encrypted : bool;
  pr_views : Z;
  pr_created_at : Z
}.

(** The object [preview]. *)
Record preview : Type := Preview {
  pv_row : preview_row;
  pv_isPrivate : bool;
  pv_isEncrypted : bool;
  pv_burnAfterRead : bool;
  pv_createdAt : Z;
  pv_expiresAt : option Z
}.

Inductive json : Type :=
  | JError (error : string)
  | JMessage (message : string)
  | JId (new_id : string)
  | JPaste (p : paste)
  | JPastes (l : list safe_paste)
  | JPreview (p : preview).

Record response : Type := Response { status : Z; body : json }.

(** [res.json(b)] and [res.status(s).json(b)] *)
Definition res_json (b : json) : response := Response 200 b.
Definition res_status_json (s : Z) (b : json) : response := Response s b.

Definition NotFoundError : response :=
  res_status_json 404 (JError "Paste not found").
Definition PasswordRequiredError : response :=
  res_status_json 401 (JError "Password required for encrypted paste").
Definition InvalidPasswordError : response :=
  res_status_json 401 (JError "Invalid password").

(** ** Request bodies *)

Record create_body : Type := CreateBody {
  req_content : string;
  req_expiresIn : option Z;
  req_language : option string;
  req_burnAfterRead : bool;
  req_isPrivate : bool;
  req_password : option string
}.

(** ** The handlers *)

Section Handlers.
Context {C : CryptoJS}.

Definition encryptContent (salt content password : string) : string :=
  CipherParams_toString (AES_encrypt salt content password).

Definition decryptContent (encryptedContent password : string)
  : outcome string :=
  match AES_decrypt encryptedContent password with
  | Returns bytes => enc_Utf8_stringify bytes
  | Throws => Throws
  end.

(** [app.post('/api/pastes', ...)] *)
Definition post_pastes (st : store) (now : Z) (rand_id salt : string)
    (b : create_body) : store * response :=
  let id := rand_id in
  let expirationDate :=
    match req_expiresIn b with
    | Some d => if d =? 0 then None else Some (now + d)
    | None => None
    end in
  let isEncrypted := truthy (req_password b) in
  let finalContent :=
    if isEncrypted
    then encryptContent salt (req_content b) (str_of (req_password b))
    else req_content b in
  match insert_paste st
          (Paste id finalContent (req_language b) expirationDate
                 (req_burnAfterRead b) (req_isPrivate b) 0 now false
                 isEncrypted) with
  | Some st' => (st', res_json (JId id))
  | None => (st, res_status_json 500 (JError "Failed to create paste"))
  end.

(** The [try { paste.content = decryptContent(...) }] block of the read
    handler: the in-memory row after it, or [Throws] when the [catch]
    clause is entered. *)
Definition try_decrypt (row : paste) (password : option string)
  : outcome paste :=
  if is_encrypted row
  then match decryptContent (content row) (str_of password) with
       | Returns plain => Returns (set_content plain row)
       | Throws => Throws
       end
  else Returns row.

(** [app.get('/api/pastes/:id', ...)] *)
Definition get_paste (st : store) (now : Z) (id : string)
    (password : option string) : store * response :=
  match select_live st now id with
  | None => (st, NotFoundError)
  | Some paste =>
      if is_encrypted paste && negb (truthy password)
      then (st, PasswordRequiredError)
      else
        match try_decrypt paste password with
        | Throws => (st, InvalidPasswordError)
        | Returns paste =>
            match update_views st id with
            | None =>
                (st, res_status_json 500 (JError "Failed to fetch paste"))
            | Some st1 =>
                let st2 :=
                  if burn_after_read paste && (1 <=? views paste)
                  then update_deleted st1 id
                  else st1 in
                (st2, res_json (JPaste paste))
            end
        end
  end.

(** The five ways through the read handler, as a relation between the
    request and the table and response it ends with. *)
Inductive get_paste_spec (st : store) (now : Z) (i : string)
    (pw : option string) : store * response → Prop :=
  | GetNotFound :
      select_live st now i = None →
      get_paste_spec st now i pw (st, NotFoundError)
  | GetPasswordRequired p :
      select_live st now i = Some p →
      is_encrypted p = true → truthy pw = false →
      get_paste_spec st now i pw (st, PasswordRequiredError)
  | GetInvalidPassword p :
      select_live st now i = Some p →
      is_encrypted p = true → truthy pw = true →
      decryptContent (content p) (str_of pw) = Throws →
      get_paste_spec st now i pw (st, InvalidPasswordError)
  | GetOverflow p p' :
      select_live st now i = Some p →
      is_encrypted p && negb (truthy pw) = false →
      try_decrypt p pw = Returns p' →
      update_views st i = None →
      get_paste_spec st now i pw
        (st, res_status_json 500 (JError "Failed to fetch paste"))
  | GetOk p p' st1 :
      select_live st now i = Some p →
      is_encrypted p && negb (truthy pw) = false →
      try_decrypt p pw = Returns p' →
      update_views st i = Some st1 →
      get_paste_spec st now i pw
        (if burn_after_read p && (1 <=? views p) then update_deleted st1 i
         else st1,
         res_json (JPaste p')).

(** The list query: live rows, [ORDER BY created_at DESC LIMIT 100]. *)
Definition created_desc (p q : paste) : Prop := created_at q ≤ created_at p.

#[global] Instance created_desc_dec p q : Decision (created_desc p q).
Proof. unfold created_desc. apply _. Defined.

Definition list_row_of (p : paste) : list_row :=
  ListRow (id p) (sql_content p) (language p) (created_at p) (views p)
          (is_private p) (burn_after_read p) (expires_at p).

Definition live_rows (st : store) (now : Z) : list paste :=
  filter (λ p, live now p = true) (map_to_list st).*2.

Definition listed (st : store) (now : Z) : list paste :=
  take 100 (merge_sort created_desc (live_rows st now)).

Definition select_list (st : store) (now : Z) : list list_row :=
  list_row_of <$> listed st now.

(** The arrow function of [pastes.map(...)]. *)
Definition safe_of (paste : list_row) : safe_paste :=
  SafePaste paste
    (if truthy_flag (lr_is_encrypted paste) then "[Encrypted]"
     else lr_content paste
          +:+ (if (100 <? String.length (lr_content paste))%nat
               then "..." else ""))
    (lr_is_private paste)
    (lr_is_encrypted paste)
    (lr_burn_after_read paste)
    (lr_created_at paste)
    (lr_expires_at paste).

(** [app.get('/api/pastes', ...)] *)
Definition get_pastes (st : store) (now : Z) : store * response :=
  let pastes := select_list st now in
  let safePastes := safe_of <$> pastes in
  (st, res_json (JPastes safePastes)).

(** The preview query. *)
Definition preview_row_of (p : paste) : preview_row :=
  PreviewRow (id p) (sql_content p) (language p) (expires_at p)
             (burn_after_read p) (is_private p) (is_encrypted p) (views p)
             (created_at p).

Definition select_preview (st : store) (now : Z) (id : string)
  : option preview_row :=
  preview_row_of <$> select_live st now id.

(** [app.get('/api/preview/:id', ...)] *)
Definition get_preview (st : store) (now : Z) (id : string)
  : store * response :=
  match select_preview st now id with
  | None => (st, NotFoundError)
  | Some paste =>
      let preview :=
        Preview paste (pr_is_private paste) (pr_is_encrypted paste)
                (pr_burn_after_read paste) (pr_created_at paste)
                (pr_expires_at paste) in
      (st, res_json (JPreview preview))
  end.

(** [app.delete('/api/pastes/:id', ...)] *)
Definition delete_paste (st : store) (id : string) : store * response :=
  match select_not_deleted st id with
  | None => (st, NotFoundError)
  | Some _ =>
      (update_deleted st id,
       res_status_json 200 (JMessage "Paste deleted successfully"))
  end.

(** ** Sequences of requests *)

Inductive request : Type :=
  | POST_pastes (now : Z) (rand_id salt : string) (b : create_body)
  | GET_paste (now : Z) (id : string) (password : option string)
  | GET_pastes (now : Z)
  | GET_preview (now : Z) (id : string)
  | DELETE_paste (id : string).

Definition handle (st : store) (r : request) : store * response :=
  match r with
  | POST_pastes now rand_id salt b => post_pastes st now rand_id salt b
  | GET_paste now id password => get_paste st now id password
  | GET_pastes now => get_pastes st now
  | GET_preview now id => get_preview st now id
  | DELETE_paste id => delete_paste st id
  end.

Fixpoint run (st : store) (rs : list request) : store * list response :=
  match rs with
  | [] => (st, [])
  | r :: rs =>
      let '(st1, a) := handle st r in
      let '(st2, l) := run st1 rs in
      (st2, a :: l)
  end.

(** [ts.length] read-by-id requests for [id], at the times [ts]. *)
Definition reads (id : string) (password : option string) (ts : list Z)
  : list request :=
  (λ t, GET_paste t id password) <$> ts.

(** The number of read-by-id requests for [i] in [rs] that were answered
    with status 200, [answers] being the responses to [rs]. *)
Definition is_read_of (i : string) (r : request) : bool :=
  match r with
  | GET_paste _ j _ => bool_decide (j = i)
  | _ => false
  end.

Fixpoint successful_reads (i : string) (rs : list request)
    (answers : list response) : Z :=
  match rs, answers with
  | r :: rs, a :: answers =>
      (if is_read_of i r && (status a =? 200) then 1 else 0)
      + successful_reads i rs answers
  | _, _ => 0
  end.

End Handlers.

#[global] Instance paste_eq_dec : EqDecision paste.
Proof. solve_decision. Defined.

(** ** A transparent instance of the cipher interface

    Used to run the handlers on concrete requests. The cipher text is the
    passphrase followed by the message. Like [CryptoJS.AES.decrypt], a
    decryption under another passphrase does not raise by itself: it yields
    bytes that the UTF-8 decoder either rejects or turns into a string. *)

Fixpoint strip_prefix (pre s : string) : option string :=
  match pre with
  | EmptyString => Some s
  | String a pre' =>
      match s with
      | String b s' => if Ascii.eqb a b then strip_prefix pre' s' else None
      | EmptyString => None
      end
  end.

Definition demo_cipher : CryptoJS := {|
  CipherParams := string;
  WordArray := option string;
  AES_encrypt := λ _ message passphrase, passphrase +:+ message;
  CipherParams_toString := λ c, c;
  AES_decrypt := λ ct passphrase,
    Returns (match strip_prefix passphrase ct with
             | Some message => Some message
             | None =>
                 if Nat.even (String.length passphrase) then Some ""
                 else None
             end);
  enc_Utf8_parse := λ message, Some message;
  enc_Utf8_stringify := λ w,
    match w with Some s => Returns s | None => Throws end
|}.

(** ** Sample requests and tables *)

Definition body_plain : create_body :=
  CreateBody "hello" None (Some "plain") false false None.

Definition body_burn : create_body :=
  CreateBody "secret" None (Some "plain") true false None.

Definition body_empty_password : create_body :=
  CreateBody "hello" None (Some "plain") false false (Some "").

(** The row stored for [{content: "secret", password: "right"}] under the
    transparent cipher. *)
Definition row_encrypted : paste :=
  Paste "a1b2c3d4" "rightsecret" (Some "plain") None false false 0 0 false
        true.

Definition st_encrypted : store := {[ "a1b2c3d4" := row_encrypted ]}.

(** A private plaintext paste of 101 characters. *)
Definition row_long : paste :=
  Paste "5eed5eed"
        (String.concat "" (replicate 101 "a")) (Some "plain") None false true
        0 0 false false.

Definition st_long : store := {[ "5eed5eed" := row_long ]}.

(** The elements of a list response. *)
Definition entries (r : response) : list safe_paste :=
  match body r with
  | JPastes l => l
  | _ => []
  end.

(** A table of 101 live pastes, created at times 0 to 100. *)
Definition row_numbered (n : nat) : paste :=
  Paste (pretty n) "x" (Some "plain") None false false 0 (Z.of_nat n) false
        false.

Definition st_101 : store :=
  list_to_map ((λ n, (pretty n, row_numbered n)) <$> seq 0 101).

(** ** Requests by what they name and do *)

(** The id a request names: the one drawn for a create, the path parameter
    otherwise; the list names none. *)
Definition request_id (r : request) : option string :=
  match r with
  | POST_pastes _ rand_id _ _ => Some rand_id
  | GET_paste _ id _ => Some id
  | GET_pastes _ => None
  | GET_preview _ id => Some id
  | DELETE_paste id => Some id
  end.

(** The handlers that issue an [INSERT] or an [UPDATE]. *)
Definition is_write (r : request) : bool :=
  match r with
  | POST_pastes _ _ _ _ | GET_paste _ _ _ | DELETE_paste _ => true
  | GET_pastes _ | GET_preview _ _ => false
  end.

(** A live plaintext paste whose counter is at the top of its column. *)
Definition row_full : paste :=
  Paste "7fffffff" "hello" (Some "plain") None false false INT_MAX 0 false
        false.

Definition st_full : store := {[ "7fffffff" := row_full ]}.

(** A plaintext paste that expired at time 10 and was never deleted. *)
Definition row_expired : paste :=
  Paste "0ld0ld00" "hello" (Some "plain") (Some 10) false false 0 0 false
        false.

Definition st_expired : store := {[ "0ld0ld00" := row_expired ]}.

(** ** Tables that requests can build *)

(** What the primary key and the handlers maintain: a row is stored under
    its own id and its counter is within the [INTEGER] column, from 0. *)
Definition table_ok (st : store) : Prop :=
  ∀ k p, st !! k = Some p → id p = k ∧ 0 ≤ views p ≤ INT_MAX.

(** The ids shown by a list response, in its order. *)
Definition listed_ids (r : response) : list string :=
  (λ e, lr_id (sp_row e)) <$> entries r.

(** The order of a list response on its [createdAt] fields. *)
Definition newest_first (e1 e2 : safe_paste) : Prop :=
  sp_createdAt e2 ≤ sp_createdAt e1.

(** A live private plaintext paste of five characters. *)
Definition row_private : paste :=
  Paste "0ddba11s" "hello" (Some "plain") None false true 0 3 false false.

Definition st_private : store := {[ "0ddba11s" := row_private ]}.

(** ** The id of a new paste: [randomBytes(4).toString('hex')] *)

(** The digit of a value below 16, in lower case. *)
Definition hex_digit (n : N) : Ascii.ascii :=
  default Ascii.zero (String.get (N.to_nat n) "0123456789abcdef").

(** [buffer.toString('hex')]: two digits per byte, the high one first. *)
Fixpoint Buffer_toString_hex (bytes : list Byte.byte) : string :=
  match bytes with
  | [] => ""
  | b :: bytes =>
      String (hex_digit (Byte.to_N b / 16))
        (String (hex_digit (Byte.to_N b mod 16))
           (Buffer_toString_hex bytes))
  end.

(** The create handler on the bytes it draws. *)
Definition post_pastes_drawing {C : CryptoJS} (st : store) (now : Z)
    (bytes : list Byte.byte) (salt : string) (b : create_body)
  : store * response :=
  post_pastes st now (Buffer_toString_hex bytes) salt b.

(** The value of a hexadecimal digit, and the reading of a string of such
    digits back into bytes; they serve to tell ids apart. *)
Definition hex_value (c : Ascii.ascii) : option N :=
  let n := Ascii.N_of_ascii c in
  if (48 <=? n)%N && (n <=? 57)%N then Some (n - 48)%N
  else if (97 <=? n)%N && (n <=? 102)%N then Some (n - 87)%N
  else None.

Fixpoint bytes_of_hex (s : string) : option (list Byte.byte) :=
  match s with
  | EmptyString => Some []
  | String c1 (String c2 s) =>
      match hex_value c1, hex_value c2, bytes_of_hex s with
      | Some h, Some l, Some bytes =>
          match Byte.of_N (16 * h + l) with
          | Some b => Some (b :: bytes)
          | None => None
          end
      | _, _, _ => None
      end
  | String _ EmptyString => None
  end.

(** ** The schema: [initializeSchema] *)

Record column : Type := Column {
  col_name : string;
  col_type : string;
  col_rest : string
}.

(** The columns of [CREATE TABLE IF NOT EXISTS pastes (...)]. *)
Definition pastes_columns : list column :=
  [ Column "id" "TEXT" "PRIMARY KEY";
    Column "content" "TEXT" "NOT NULL";
    Column "language" "TEXT" "DEFAULT 'plain'";
    Column "expires_at" "TIMESTAMP" "";
    Column "burn_after_read" "BOOLEAN" "DEFAULT false";
    Column "is_private" "BOOLEAN" "DEFAULT false";
    Column "views" "INTEGER" "DEFAULT 0";
    Column "created_at" "TIMESTAMP" "DEFAULT CURRENT_TIMESTAMP";
    Column "deleted" "BOOLEAN" "DEFAULT false" ].

(** The column of [ALTER TABLE pastes ADD COLUMN IF NOT EXISTS ...]. *)
Definition is_encrypted_column : column :=
  Column "is_encrypted" "BOOLEAN" "DEFAULT false".

(** A database as far as the statements look at it: its tables by name,
    each with its columns in order. *)
Abbreviation schema := (gmap string (list column)).

(** [CREATE TABLE IF NOT EXISTS name (cols)] *)
Definition create_table_if_not_exists (name : string) (cols : list column)
    (db : schema) : schema :=
  match db !! name with
  | Some _ => db
  | None => <[name := cols]> db
  end.

(** [ALTER TABLE name ADD COLUMN IF NOT EXISTS c]; [None] when the
    statement raises because the table does not exist. *)
Definition add_column_if_not_exists (name : string) (c : column)
    (db : schema) : option schema :=
  match db !! name with
  | None => None
  | Some cols =>
      if bool_decide (col_name c ∈ col_name <$> cols) then Some db
      else Some (<[name := cols ++ [c]]> db)
  end.

(** [initializeSchema()]; [None] when the [catch] clause ends the
    process. *)
Definition initializeSchema (db : schema) : option schema :=
  add_column_if_not_exists "pastes" is_encrypted_column
    (create_table_if_not_exists "pastes" pastes_columns db).

(** The table as the first version of the service left it. *)
Definition db_before_migration : schema := {[ "pastes" := pastes_columns ]}.

(** ** Sample sequences of requests *)

(** Requests on [st_encrypted] that are refused, and two summaries. *)
Definition refused_requests : list request :=
  [ GET_paste 5 "a1b2c3d4" None;
    GET_paste 5 "a1b2c3d4" (Some "wrong");
    GET_preview 5 "a1b2c3d4";
    GET_pastes 5;
    DELETE_paste "00000000";
    POST_pastes 6 "a1b2c3d4" "salt" body_plain ].

(** Requests that name the id [c0ffee00] or none. *)
Definition other_requests : list request :=
  [ POST_pastes 1 "c0ffee00" "salt" body_plain;
    GET_paste 2 "c0ffee00" None;
    GET_pastes 3;
    GET_preview 3 "c0ffee00";
    DELETE_paste "c0ffee00" ].

(** A read, a delete and more on the paste of [st_encrypted]. *)
Definition mixed_requests : list request :=
  [ GET_paste 1 "a1b2c3d4" (Some "right");
    DELETE_paste "a1b2c3d4";
    GET_paste 2 "a1b2c3d4" (Some "right");
    POST_pastes 3 "a1b2c3d4" "salt" body_plain;
    GET_pastes 4 ].

(** Reads with and without password of the paste [deadbeef]. *)
Definition burn_requests : list request :=
  [ GET_paste 1 "deadbeef" None;
    GET_preview 1 "deadbeef";
    GET_paste 2 "deadbeef" (Some "any");
    GET_paste 3 "deadbeef" None;
    GET_paste 4 "deadbeef" None ].



Definition bytes_deadbeef : list Byte.byte :=
  [Byte.xde; Byte.xad; Byte.xbe; Byte.xef].

Definition bytes_c0ffee00 : list Byte.byte :=
  [Byte.xc0; Byte.xff; Byte.xee; Byte.x00].

(** * Properties *)

(** ** The statements on the table *)

Lemma select_live_Some st now i p :
  select_live st now i = Some p ↔ st !! i = Some p ∧ live now p = true.
Proof.
  unfold select_live. destruct (st !! i) as [q|]; [|by split; [|intros []]].
  destruct (live now q) eqn:E; split.
  - intros [= <-]. done.
  - by intros [[= <-] _].
  - done.
  - intros [[= <-] ?]. congruence.
Qed.

Lemma select_live_None st now i :
  select_live st now i = None ↔
  st !! i = None ∨ ∃ p, st !! i = Some p ∧ live now p = false.
Proof.
  unfold select_live. destruct (st !! i) as [q|]; [|by split; [left|]].
  destruct (live now q) eqn:E; split.
  - done.
  - intros [|(p & [= <-] & ?)]; [done|congruence].
  - intros _. right. by exists q.
  - done.
Qed.

Lemma live_false now p :
  live now p = false ↔
  deleted p = true ∨ ∃ e, expires_at p = Some e ∧ e ≤ now.
Proof.
  unfold live, not_expired.
  destruct (expires_at p) as [e|], (deleted p); simpl;
    rewrite ?andb_true_r, ?andb_false_r.
  - split; [by left|done].
  - rewrite Z.ltb_ge. split.
    + intros. right. by exists e.
    + intros [|(? & [= <-] & ?)]; done.
  - split; [by left|done].
  - split; [done|]. intros [|(? & ? & ?)]; done.
Qed.

Lemma update_views_lookup st i st1 p :
  update_views st i = Some st1 → st !! i = Some p →
  st1 = <[i := set_views (views p + 1) p]> st ∧ views p + 1 ≤ INT_MAX.
Proof.
  unfold update_views. intros H Hp. rewrite Hp in H.
  destruct (views p + 1 <=? INT_MAX) eqn:E; [|done].
  apply Z.leb_le in E. by injection H as <-.
Qed.

Lemma update_views_other st i st1 j :
  update_views st i = Some st1 → i ≠ j → st1 !! j = st !! j.
Proof.
  unfold update_views. intros H Hne. destruct (st !! i) as [p|].
  - destruct (views p + 1 <=? INT_MAX); [|done].
    injection H as <-. by rewrite lookup_insert_ne.
  - by injection H as <-.
Qed.

Lemma update_deleted_lookup st i :
  update_deleted st i !! i = set_deleted true <$> st !! i.
Proof. unfold update_deleted. by rewrite lookup_alter_eq. Qed.

Lemma update_deleted_other st i j :
  i ≠ j → update_deleted st i !! j = st !! j.
Proof. intros. unfold update_deleted. by rewrite lookup_alter_ne. Qed.

(** ** Strings *)

Lemma string_app_cons (a : Ascii.ascii) (s1 s2 : string) :
  String a s1 +:+ s2 = String a (s1 +:+ s2).
Proof. reflexivity. Qed.

Lemma string_length_app (s1 s2 : string) :
  String.length (s1 +:+ s2) = (String.length s1 + String.length s2)%nat.
Proof.
  induction s1 as [|a s1 IH]; [done|].
  rewrite string_app_cons. simpl. by rewrite IH.
Qed.

Lemma string_app_assoc (s1 s2 s3 : string) :
  (s1 +:+ s2) +:+ s3 = s1 +:+ (s2 +:+ s3).
Proof.
  induction s1 as [|a s1 IH]; [done|].
  rewrite !string_app_cons. by rewrite IH.
Qed.


Lemma substring_0_length (n : nat) (s : string) :
  (n ≤ String.length s)%nat →
  String.length (String.substring 0 n s) = n.
Proof.
  revert s. induction n as [|n IH]; intros [|a s]; simpl; try done.
  - lia.
  - intros. rewrite IH; [done|lia].
Qed.


(** ** The transparent cipher keeps the contract *)

Lemma strip_prefix_app pre s : strip_prefix pre (pre +:+ s) = Some s.
Proof.
  induction pre as [|a pre IH]; [done|].
  rewrite string_app_cons. simpl. by rewrite Ascii.eqb_refl.
Qed.

Lemma demo_cipher_contract : CryptoJS_contract demo_cipher.
Proof.
  split; simpl; [|done].
  intros _ message passphrase. by rewrite strip_prefix_app.
Qed.

(** ** The content column of summaries *)

Lemma sql_content_long p :
  is_encrypted p = false → (100 < String.length (content p))%nat →
  sql_content p = String.substring 0 100 (content p) +:+ "...".
Proof.
  intros He Hl. unfold sql_content. rewrite He.
  by apply Nat.ltb_lt in Hl as ->.
Qed.


(** The list handler appends its own marker to a column that already
    carries one. *)
Lemma safe_of_content_long p :
  is_encrypted p = false → (100 < String.length (content p))%nat →
  sp_content (safe_of (list_row_of p))
  = String.substring 0 100 (content p) +:+ "......".
Proof.
  intros He Hl. unfold safe_of, list_row_of, lr_is_encrypted. simpl.
  rewrite sql_content_long by done.
  assert ((100 <? String.length
                    (String.substring 0 100 (content p) +:+ "..."))%nat
          = true) as ->.
  { apply Nat.ltb_lt. rewrite string_length_app, substring_0_length by lia.
    simpl. lia. }
  by rewrite string_app_assoc.
Qed.


(** An encrypted paste shows the placeholder of the query in the list and
    in the preview alike. *)
Lemma safe_of_content_encrypted p :
  is_encrypted p = true →
  sp_content (safe_of (list_row_of p)) = "[Encrypted Content]" ∧
  pr_content (preview_row_of p) = "[Encrypted Content]".
Proof.
  intros He. unfold safe_of, list_row_of, preview_row_of, lr_is_encrypted,
    sql_content. simpl. by rewrite He.
Qed.

(** ** The list query *)

#[global] Instance created_desc_total : Total created_desc.
Proof. intros p q. unfold created_desc. lia. Qed.

#[global] Instance created_desc_trans : Transitive created_desc.
Proof. intros p q r. unfold created_desc. lia. Qed.

Lemma live_true now p :
  live now p = true ↔
  deleted p = false ∧
  (expires_at p = None ∨ ∃ e, expires_at p = Some e ∧ now < e).
Proof.
  unfold live, not_expired. rewrite andb_true_iff, negb_true_iff.
  destruct (expires_at p) as [e|].
  - rewrite Z.ltb_lt. split.
    + intros [? ?]. split; [done|]. right. by exists e.
    + intros [? [|(? & [= <-] & ?)]]; done.
  - split; [intros [_ ?]; by split; [|left]|by intros [? _]].
Qed.

Lemma elem_of_live_rows st now p :
  p ∈ live_rows st now ↔ (∃ k, st !! k = Some p) ∧ live now p = true.
Proof.
  unfold live_rows. rewrite list_elem_of_filter, list_elem_of_fmap.
  split.
  - intros [Hl ([k q] & -> & Hq)]. split; [|done].
    exists k. by apply elem_of_map_to_list.
  - intros [[k Hk] Hl]. split; [done|].
    exists (k, p). split; [done|]. by apply elem_of_map_to_list.
Qed.

Lemma elem_of_sorted_live_rows st now p :
  p ∈ merge_sort created_desc (live_rows st now) ↔ p ∈ live_rows st now.
Proof. by rewrite merge_sort_Permutation. Qed.

Lemma listed_live st now p :
  p ∈ listed st now → (∃ k, st !! k = Some p) ∧ live now p = true.
Proof.
  intros H. apply elem_of_live_rows, elem_of_sorted_live_rows.
  by apply (subseteq_take 100).
Qed.

Lemma listed_length st now : (length (listed st now) ≤ 100)%nat.
Proof. unfold listed. rewrite length_take. lia. Qed.

Lemma listed_sorted st now : StronglySorted created_desc (listed st now).
Proof.
  unfold listed.
  apply (StronglySorted_app_1_l _ _ (drop 100 (merge_sort created_desc
                                                  (live_rows st now)))).
  rewrite take_drop. apply StronglySorted_merge_sort; apply _.
Qed.

(** A live paste is left out only when the limit is reached, and then by
    pastes that are at least as recent. *)
Lemma listed_most_recent st now p :
  p ∈ live_rows st now → p ∉ listed st now →
  length (listed st now) = 100%nat ∧
  ∀ q, q ∈ listed st now → created_at p ≤ created_at q.
Proof.
  intros Hp Hn. apply elem_of_sorted_live_rows in Hp. unfold listed in *.
  set (l := merge_sort created_desc (live_rows st now)) in *.
  rewrite <-(take_drop 100 l) in Hp.
  apply elem_of_app in Hp as [Hp|Hp]; [done|].
  split.
  - apply length_take_le.
    destruct (decide (100 ≤ length l)%nat) as [|Hlt]; [done|].
    rewrite drop_ge in Hp by lia. by apply elem_of_nil in Hp.
  - intros q Hq.
    apply (StronglySorted_app_1_elem_of created_desc (take 100 l)
             (drop 100 l) q p); [|done..].
    rewrite take_drop. apply StronglySorted_merge_sort; apply _.
Qed.


Lemma entries_get_pastes st now :
  entries (get_pastes st now).2 = safe_of <$> (list_row_of <$> listed st now).
Proof. reflexivity. Qed.

(** C3: in the list, a live unencrypted paste longer than 100 characters
    shows its first 100 characters followed by two ellipsis markers, one
    from the query and one from the handler, where the preview shows one. *)
Theorem get_pastes_doubles_the_ellipsis st now p :
  p ∈ listed st now → is_encrypted p = false →
  (100 < String.length (content p))%nat →
  safe_of (list_row_of p) ∈ entries (get_pastes st now).2 ∧
  sp_content (safe_of (list_row_of p))
  = String.substring 0 100 (content p) +:+ "......" ∧
  pr_content (preview_row_of p)
  = String.substring 0 100 (content p) +:+ "...".
Proof.
  intros Hp He Hl. split; [|split].
  - rewrite entries_get_pastes. by do 2 apply list_elem_of_fmap_2.
  - by apply safe_of_content_long.
  - by apply sql_content_long.
Qed.

Lemma get_pastes_doubles_the_ellipsis_witness :
  safe_of (list_row_of row_long) ∈ entries (get_pastes st_long 7).2 ∧
  sp_content (safe_of (list_row_of row_long))
  = String.substring 0 100 (content row_long) +:+ "......" ∧
  pr_content (preview_row_of row_long)
  = String.substring 0 100 (content row_long) +:+ "...".
Proof.
  apply (get_pastes_doubles_the_ellipsis st_long 7 row_long).
  - apply (bool_decide_unpack _). vm_compute. reflexivity.
  - reflexivity.
  - vm_compute. lia.
Defined.

(** ** Visibility *)

Lemma get_preview_not_found st now i :
  select_live st now i = None → get_preview st now i = (st, NotFoundError).
Proof. intros H. unfold get_preview, select_preview. by rewrite H. Qed.

Lemma get_preview_found st now i p :
  select_live st now i = Some p →
  get_preview st now i
  = (st, res_json (JPreview
       (Preview (preview_row_of p) (is_private p) (is_encrypted p)
                (burn_after_read p) (created_at p) (expires_at p)))).
Proof. intros H. unfold get_preview, select_preview. by rewrite H. Qed.

Lemma select_live_is_Some st now i :
  select_live st now i ≠ None ↔ ∃ p, st !! i = Some p ∧ live now p = true.
Proof.
  split.
  - destruct (select_live st now i) as [p|] eqn:H; [|done].
    intros _. exists p. by apply select_live_Some.
  - intros (p & Hp). apply select_live_Some in Hp. congruence.
Qed.

(** ** The read handler, case by case *)

Section Read.
Context {C : CryptoJS}.

Lemma get_paste_not_found st now i pw :
  select_live st now i = None → get_paste st now i pw = (st, NotFoundError).
Proof. intros H. unfold get_paste. by rewrite H. Qed.

Lemma get_paste_password_required st now i pw p :
  select_live st now i = Some p → is_encrypted p = true → truthy pw = false →
  get_paste st now i pw = (st, PasswordRequiredError).
Proof. intros H He Hp. unfold get_paste. by rewrite H, He, Hp. Qed.

Lemma get_paste_invalid_password st now i pw p :
  select_live st now i = Some p →
  is_encrypted p && negb (truthy pw) = false →
  try_decrypt p pw = Throws →
  get_paste st now i pw = (st, InvalidPasswordError).
Proof. intros H He Hd. unfold get_paste. by rewrite H, He, Hd. Qed.

Lemma get_paste_overflow st now i pw p p' :
  select_live st now i = Some p →
  is_encrypted p && negb (truthy pw) = false →
  try_decrypt p pw = Returns p' →
  update_views st i = None →
  get_paste st now i pw
  = (st, res_status_json 500 (JError "Failed to fetch paste")).
Proof. intros H He Hd Hu. unfold get_paste. by rewrite H, He, Hd, Hu. Qed.

Lemma get_paste_ok st now i pw p p' st1 :
  select_live st now i = Some p →
  is_encrypted p && negb (truthy pw) = false →
  try_decrypt p pw = Returns p' →
  update_views st i = Some st1 →
  get_paste st now i pw
  = (if burn_after_read p' && (1 <=? views p') then update_deleted st1 i
     else st1,
     res_json (JPaste p')).
Proof. intros H He Hd Hu. unfold get_paste. by rewrite H, He, Hd, Hu. Qed.

(** The decryption step changes the content of the in-memory row only. *)
Lemma try_decrypt_fields p pw p' :
  try_decrypt p pw = Returns p' →
  views p' = views p ∧ burn_after_read p' = burn_after_read p ∧
  deleted p' = deleted p ∧ is_encrypted p' = is_encrypted p ∧ id p' = id p.
Proof.
  unfold try_decrypt. destruct (is_encrypted p) eqn:E.
  - destruct (decryptContent _ _); [|done]. by intros [= <-].
  - by intros [= <-].
Qed.

Lemma get_paste_cases st now i pw :
  get_paste_spec st now i pw (get_paste st now i pw).
Proof.
  destruct (select_live st now i) as [p|] eqn:H.
  2: { rewrite get_paste_not_found by done. by constructor. }
  destruct (is_encrypted p && negb (truthy pw)) eqn:He.
  { apply andb_true_iff in He as [He Hp]. apply negb_true_iff in Hp.
    rewrite (get_paste_password_required _ _ _ _ p) by done.
    by econstructor. }
  destruct (try_decrypt p pw) as [p'|] eqn:Hd.
  2: { rewrite (get_paste_invalid_password _ _ _ _ p) by done.
       unfold try_decrypt in Hd. destruct (is_encrypted p) eqn:E; [|done].
       simpl in He. apply negb_false_iff in He.
       destruct (decryptContent _ _) eqn:D; [done|]. by econstructor. }
  destruct (update_views st i) as [st1|] eqn:Hu.
  2: { rewrite (get_paste_overflow _ _ _ _ p p') by done. by econstructor. }
  rewrite (get_paste_ok _ _ _ _ p p' st1) by done.
  destruct (try_decrypt_fields _ _ _ Hd) as (-> & -> & _).
  by econstructor.
Qed.

Lemma get_paste_not_found_iff st now i pw :
  (get_paste st now i pw).2 = NotFoundError ↔ select_live st now i = None.
Proof.
  destruct (get_paste_cases st now i pw)
    as [H | p H He Hp | p H He Hp Hd | p p' H He Hd Hu | p p' st1 H He Hd Hu];
    simpl; (split; [try done|congruence]).
Qed.

Lemma try_decrypt_throws p pw :
  is_encrypted p = true → decryptContent (content p) (str_of pw) = Throws →
  try_decrypt p pw = Throws.
Proof. intros He Hd. unfold try_decrypt. by rewrite He, Hd. Qed.

(** C4: the failures of a read-by-id are decided in the order not found,
    password required, invalid password, each under a condition that
    excludes the others, and a read that does not answer 200 leaves the
    table as it was (no view counted, nothing deleted). *)
Theorem get_paste_failures_in_order st now i pw :
  let st' := (get_paste st now i pw).1 in
  let r := (get_paste st now i pw).2 in
  (r = NotFoundError ↔ select_live st now i = None) ∧
  (r = PasswordRequiredError ↔
     ∃ p, select_live st now i = Some p ∧ is_encrypted p = true ∧
          truthy pw = false) ∧
  (r = InvalidPasswordError ↔
     ∃ p, select_live st now i = Some p ∧ is_encrypted p = true ∧
          truthy pw = true ∧
          decryptContent (content p) (str_of pw) = Throws) ∧
  (status r ≠ 200 → st' = st).
Proof.
  simpl. destruct (get_paste_cases st now i pw)
    as [H | p H He Hp | p H He Hp Hd | p p' H He Hd Hu | p p' st1 H He Hd Hu];
    simpl.
  - repeat split; try done.
    + intros (p & Hp & _). congruence.
    + intros (p & Hp & _). congruence.
  - repeat split; try done.
    + congruence.
    + by exists p.
    + intros (q & Hq & _ & ? & _). congruence.
  - repeat split; try done.
    + congruence.
    + intros (q & Hq & _ & ? ). congruence.
    + by exists p.
  - repeat split; try done.
    + congruence.
    + intros (q & Hq & E & Hf). rewrite H in Hq. injection Hq as <-.
      by rewrite E, Hf in He.
    + intros (q & Hq & E & _ & D). rewrite H in Hq. injection Hq as <-.
      by rewrite (try_decrypt_throws _ _ E D) in Hd.
  - repeat split; try done.
    + congruence.
    + intros (q & Hq & E & Hf). rewrite H in Hq. injection Hq as <-.
      by rewrite E, Hf in He.
    + intros (q & Hq & E & _ & D). rewrite H in Hq. injection Hq as <-.
      by rewrite (try_decrypt_throws _ _ E D) in Hd.
Qed.

(** C5, as the code has it: read-by-id and preview answer for an id
    exactly when its row is live (not deleted, and without expiry or with
    an expiry strictly in the future), and otherwise give the one
    not-found response, whether the id is absent, expired or deleted. The
    list shows live rows only; a live row is missing from it only when the
    list is full with 100 rows created no earlier. *)
Theorem visible_iff_live_within_list_limit st now i pw :
  (∀ p, live now p = true ↔
        deleted p = false ∧
        (expires_at p = None ∨ ∃ e, expires_at p = Some e ∧ now < e)) ∧
  ((get_paste st now i pw).2 ≠ NotFoundError ↔
     ∃ p, st !! i = Some p ∧ live now p = true) ∧
  ((get_preview st now i).2 ≠ NotFoundError ↔
     ∃ p, st !! i = Some p ∧ live now p = true) ∧
  (st !! i = None ∨
   (∃ p, st !! i = Some p ∧
         (deleted p = true ∨ ∃ e, expires_at p = Some e ∧ e ≤ now)) →
     get_paste st now i pw = (st, NotFoundError) ∧
     get_preview st now i = (st, NotFoundError)) ∧
  (∀ e, e ∈ entries (get_pastes st now).2 →
     ∃ k p, st !! k = Some p ∧ live now p = true ∧
            e = safe_of (list_row_of p)) ∧
  (∀ p, st !! i = Some p → live now p = true →
     safe_of (list_row_of p) ∉ entries (get_pastes st now).2 →
     length (entries (get_pastes st now).2) = 100%nat ∧
     ∀ e, e ∈ entries (get_pastes st now).2 → created_at p ≤ sp_createdAt e).
Proof.
  split; [intros p; apply live_true|].
  split.
  { by rewrite <-select_live_is_Some, get_paste_not_found_iff. }
  split.
  { rewrite <-select_live_is_Some.
    destruct (select_live st now i) as [p|] eqn:H.
    - by rewrite (get_preview_found _ _ _ p).
    - by rewrite get_preview_not_found. }
  split.
  { intros H.
    assert (select_live st now i = None) as E.
    { apply select_live_None. destruct H as [H|(p & Hp & H)]; [by left|].
      right. exists p. split; [done|]. by apply live_false. }
    by rewrite get_paste_not_found, get_preview_not_found. }
  rewrite entries_get_pastes. split.
  - intros e He.
    apply list_elem_of_fmap in He as (r & -> & Hr).
    apply list_elem_of_fmap in Hr as (p & -> & Hp).
    apply listed_live in Hp as [[k Hk] Hl]. by exists k, p.
  - intros p Hp Hl Hn.
    destruct (listed_most_recent st now p) as [Hlen Hrec].
    + apply elem_of_live_rows. split; [by exists i|done].
    + intros Hin. apply Hn. by do 2 apply list_elem_of_fmap_2.
    + split; [by rewrite !length_fmap|].
      intros e He.
      apply list_elem_of_fmap in He as (r & -> & Hr).
      apply list_elem_of_fmap in Hr as (q & -> & Hq).
      simpl. by apply Hrec.
Qed.

(** C10: a successful read-by-id answers with the row as it was fetched:
    the [views] it reports is the stored counter before this read's own
    increment, while the table then holds that counter plus one. *)
Theorem get_paste_reports_views_before_increment st now i pw :
  status (get_paste st now i pw).2 = 200 →
  ∃ p p', st !! i = Some p ∧
          body (get_paste st now i pw).2 = JPaste p' ∧
          views p' = views p ∧
          views <$> (get_paste st now i pw).1 !! i = Some (views p + 1).
Proof.
  destruct (get_paste_cases st now i pw)
    as [H | p H He Hp | p H He Hp Hd | p p' H He Hd Hu | p p' st1 H He Hd Hu];
    simpl; try done.
  intros _. apply select_live_Some in H as [H _].
  destruct (update_views_lookup _ _ _ _ Hu H) as [-> _].
  exists p, p'. repeat split; [done|by apply try_decrypt_fields in Hd as [? _]|].
  destruct (burn_after_read _ && _).
  - by rewrite update_deleted_lookup, lookup_insert_eq.
  - by rewrite lookup_insert_eq.
Qed.

(** An empty [password] query parameter on an encrypted paste is answered
    as a missing one, whatever the cipher would do. *)
Lemma get_paste_empty_password st now i p :
  select_live st now i = Some p → is_encrypted p = true →
  get_paste st now i (Some "") = (st, PasswordRequiredError).
Proof. intros. by apply (get_paste_password_required _ _ _ _ p). Qed.

(** The row stored by a create request whose id is free. *)
Lemma post_pastes_fresh st now i salt b :
  st !! i = None →
  post_pastes st now i salt b
  = (<[i := Paste i
             (if truthy (req_password b)
              then encryptContent salt (req_content b)
                                  (str_of (req_password b))
              else req_content b)
             (req_language b)
             (match req_expiresIn b with
              | Some d => if d =? 0 then None else Some (now + d)
              | None => None
              end)
             (req_burnAfterRead b) (req_isPrivate b) 0 now false
             (truthy (req_password b))]> st,
     res_json (JId i)).
Proof. intros H. unfold post_pastes, insert_paste. simpl. by rewrite H. Qed.

(** C9: an empty-string passphrase counts as none. A create request with
    [password = ""] stores the content as given with [is_encrypted = false];
    a read-by-id of an encrypted paste with [password = ""] is answered
    with the password-required failure and decrypts nothing. *)
Theorem empty_password_is_no_password st now i salt b st2 now2 j p :
  req_password b = Some "" → st !! i = None →
  select_live st2 now2 j = Some p → is_encrypted p = true →
  (∃ q, (post_pastes st now i salt b).1 !! i = Some q ∧
        content q = req_content b ∧ is_encrypted q = false) ∧
  (post_pastes st now i salt b).2 = res_json (JId i) ∧
  get_paste st2 now2 j (Some "") = (st2, PasswordRequiredError).
Proof.
  intros Hb Hi Hp He. rewrite post_pastes_fresh by done. simpl.
  rewrite lookup_insert_eq, Hb. simpl. split; [by eexists|].
  split; [done|]. by apply (get_paste_empty_password _ _ _ p).
Qed.

(** C8: under the contract of the library, decrypting what
    [encryptContent] produced, with the same passphrase, returns the
    plaintext. *)
Theorem decryptContent_encryptContent `{!CryptoJS_contract C} salt P Q :
  decryptContent (encryptContent salt P Q) Q = Returns P.
Proof.
  unfold decryptContent, encryptContent.
  rewrite AES_decrypt_encrypt. apply enc_Utf8_stringify_parse.
Qed.

(** C2: the read handler rejects a passphrase only when [decryptContent]
    raises. Whatever string a decryption returns, the empty string
    included, is sent back with status 200 and counted as a view. *)
Theorem get_paste_returns_any_decryption st now i pw p s :
  select_live st now i = Some p → is_encrypted p = true →
  truthy pw = true →
  decryptContent (content p) (str_of pw) = Returns s →
  views p + 1 ≤ INT_MAX →
  (get_paste st now i pw).2 = res_json (JPaste (set_content s p)) ∧
  views <$> (get_paste st now i pw).1 !! i = Some (views p + 1).
Proof.
  intros H He Hp Hd Hv.
  assert (try_decrypt p pw = Returns (set_content s p)) as Ht.
  { unfold try_decrypt. by rewrite He, Hd. }
  assert (update_views st i
          = Some (<[i := set_views (views p + 1) p]> st)) as Hu.
  { unfold update_views. apply select_live_Some in H as [-> _].
    by apply Z.leb_le in Hv as ->. }
  rewrite (get_paste_ok _ _ _ _ p _ _ H) by (by rewrite ?He, ?Hp).
  simpl. split; [done|]. destruct (burn_after_read _ && _).
  - by rewrite update_deleted_lookup, lookup_insert_eq.
  - by rewrite lookup_insert_eq.
Qed.

(** ** Reads of a paste stored in plaintext *)

Lemma get_paste_plain st now i pw p :
  st !! i = Some p → live now p = true → is_encrypted p = false →
  views p + 1 ≤ INT_MAX →
  get_paste st now i pw
  = (if burn_after_read p && (1 <=? views p)
     then update_deleted (<[i := set_views (views p + 1) p]> st) i
     else <[i := set_views (views p + 1) p]> st,
     res_json (JPaste p)).
Proof.
  intros Hp Hl He Hv.
  apply (get_paste_ok _ _ _ _ p).
  - by apply select_live_Some.
  - by rewrite He.
  - unfold try_decrypt. by rewrite He.
  - unfold update_views. rewrite Hp. by apply Z.leb_le in Hv as ->.
Qed.

(** C1: a paste created with [burnAfterRead] set, in plaintext and without
    expiry, is served by the first read and again by the second one: the
    handler tests the [views] of the row it fetched before its own
    increment, so the first read deletes nothing. Only the second read
    deletes the row, and the third one is answered not found. *)
Theorem burn_after_read_is_served_twice st now i salt b t1 t2 t3 pw :
  st !! i = None → req_burnAfterRead b = true →
  truthy (req_password b) = false → req_expiresIn b = None →
  let st0 := (post_pastes st now i salt b).1 in
  let p0 := Paste i (req_content b) (req_language b) None true
                  (req_isPrivate b) 0 now false false in
  (run st0 [GET_paste t1 i pw]).1 !! i = Some (set_views 1 p0) ∧
  (run st0 [GET_paste t1 i pw; GET_paste t2 i pw; GET_paste t3 i pw]).2
  = [res_json (JPaste p0); res_json (JPaste (set_views 1 p0));
     NotFoundError].
Proof.
  intros Hi Hb Hp He st0 p0.
  assert (st0 = <[i := p0]> st) as ->.
  { unfold st0, p0. rewrite post_pastes_fresh by done. simpl.
    by rewrite Hp, He, Hb. }
  set (st1 := <[i := set_views 1 p0]> (<[i := p0]> st)).
  set (st2 := update_deleted (<[i := set_views 2 p0]> st1) i).
  assert (get_paste (<[i := p0]> st) t1 i pw = (st1, res_json (JPaste p0)))
    as H1.
  { rewrite (get_paste_plain _ t1 i pw p0); [done|..]; try done.
    by rewrite lookup_insert_eq. }
  assert (get_paste st1 t2 i pw = (st2, res_json (JPaste (set_views 1 p0))))
    as H2.
  { rewrite (get_paste_plain _ t2 i pw (set_views 1 p0)); [done|..];
      try done.
    unfold st1. by rewrite lookup_insert_eq. }
  assert (get_paste st2 t3 i pw = (st2, NotFoundError)) as H3.
  { apply get_paste_not_found, select_live_None. right.
    exists (set_deleted true (set_views 2 p0)). split; [|done].
    unfold st2. by rewrite update_deleted_lookup, lookup_insert_eq. }
  unfold run, handle. rewrite H1. cbv beta iota. rewrite H2, H3.
  cbv beta iota. split; [|done].
  unfold fst, st1. by rewrite lookup_insert_eq.
Qed.

End Read.

(** ** Sequences of requests *)

Section Traces.
Context {C : CryptoJS}.

(** One request changes a row only in [views] and [deleted]: [views] grows
    by one when the request is a read of that row answered with 200 and
    stays otherwise, and [deleted] is never reset. *)
Lemma handle_row st rq i p :
  st !! i = Some p →
  ∃ q, (handle st rq).1 !! i = Some q ∧
       views q = views p
                 + (if is_read_of i rq && (status (handle st rq).2 =? 200)
                    then 1 else 0) ∧
       (deleted p = true → deleted q = true) ∧
       at_birth q = at_birth p.
Proof.
  intros Hp. destruct rq as [now j salt b|now j pw|now|now j|j]; simpl.
  - unfold post_pastes, insert_paste. simpl.
    destruct (st !! j) as [q|] eqn:Hj; simpl.
    + exists p. rewrite Z.add_0_r. done.
    + exists p. rewrite Z.add_0_r.
      rewrite lookup_insert_ne by congruence. done.
  - destruct (get_paste_cases st now j pw)
      as [H | p1 H He Hw | p1 H He Hw Hd | p1 p' H He Hd Hu
          | p1 p' st1 H He Hd Hu]; simpl;
      try (exists p; rewrite andb_false_r, Z.add_0_r; done).
    rewrite andb_true_r. apply select_live_Some in H as [H _].
    case_bool_decide as Hij.
    + subst j. rewrite Hp in H. injection H as <-.
      destruct (update_views_lookup _ _ _ _ Hu Hp) as [-> _].
      destruct (burn_after_read p && _).
      * rewrite update_deleted_lookup, lookup_insert_eq. simpl.
        by eexists.
      * rewrite lookup_insert_eq. by eexists.
    + exists p. rewrite Z.add_0_r.
      destruct (burn_after_read p1 && _).
      * rewrite update_deleted_other by done.
        by rewrite (update_views_other _ _ _ _ Hu).
      * by rewrite (update_views_other _ _ _ _ Hu).
  - exists p. by rewrite Z.add_0_r.
  - exists p. rewrite Z.add_0_r. unfold get_preview.
    by destruct (select_preview st now j).
  - rewrite Z.add_0_r. unfold delete_paste.
    destruct (select_not_deleted st j); simpl; [|by exists p].
    destruct (decide (j = i)) as [->|].
    + exists (set_deleted true p). by rewrite update_deleted_lookup, Hp.
    + exists p. by rewrite update_deleted_other.
Qed.

Lemma run_cons st rq rs :
  run st (rq :: rs)
  = ((run (handle st rq).1 rs).1, (handle st rq).2 :: (run (handle st rq).1 rs).2).
Proof.
  simpl. destruct (handle st rq) as [st1 a]. simpl.
  by destruct (run st1 rs).
Qed.

(** The same along any sequence of requests. *)
Lemma run_row st rs i p :
  st !! i = Some p →
  ∃ q, (run st rs).1 !! i = Some q ∧
       views q = views p + successful_reads i rs (run st rs).2 ∧
       (deleted p = true → deleted q = true) ∧
       at_birth q = at_birth p.
Proof.
  revert st p. induction rs as [|rq rs IH]; intros st p Hp.
  - exists p. simpl. by rewrite Z.add_0_r.
  - rewrite run_cons. simpl.
    destruct (handle_row st rq i p Hp) as (q & Hq & Hv & Hd & Hb).
    destruct (IH _ _ Hq) as (q' & Hq' & Hv' & Hd' & Hb').
    exists q'. split; [done|]. split; [lia|]. split; [auto|congruence].
Qed.

(** Reads of a live plaintext paste without [burn_after_read] and without
    expiry all succeed, as long as the counter fits its column. *)
Lemma run_reads_plain st i pw ts p :
  st !! i = Some p → is_encrypted p = false → burn_after_read p = false →
  deleted p = false → expires_at p = None →
  views p + Z.of_nat (length ts) ≤ INT_MAX →
  Forall (λ a, status a = 200) (run st (reads i pw ts)).2.
Proof.
  revert st p. induction ts as [|t ts IH]; intros st p Hp He Hb Hd Hx Hv.
  - constructor.
  - unfold reads. rewrite fmap_cons, run_cons. simpl in *.
    rewrite (get_paste_plain _ _ _ _ p); try done.
    + rewrite Hb. simpl. constructor; [done|].
      apply (IH _ (set_views (views p + 1) p)); try done.
      * by rewrite lookup_insert_eq.
      * simpl. lia.
    + unfold live, not_expired. by rewrite Hx, Hd.
    + lia.
Qed.

Lemma successful_reads_all i pw ts answers :
  length answers = length ts → Forall (λ a, status a = 200) answers →
  successful_reads i (reads i pw ts) answers = Z.of_nat (length ts).
Proof.
  revert answers. induction ts as [|t ts IH]; intros [|a answers] Hl Ha;
    try done.
  apply Forall_cons in Ha as [Ha Hs]. unfold reads. rewrite fmap_cons.
  simpl. rewrite bool_decide_eq_true_2 by done. rewrite Ha. simpl.
  fold (reads i pw ts). rewrite IH by (auto; simpl in Hl; lia). lia.
Qed.

Lemma run_length st rs : length (run st rs).2 = length rs.
Proof.
  revert st. induction rs as [|rq rs IH]; intros st; [done|].
  rewrite run_cons. simpl. by rewrite IH.
Qed.

(** C6: a paste created without [burnAfterRead] starts with [views = 0];
    after any sequence of requests its stored [views] is the number of
    read-by-id requests for it that were answered with 200, so nothing
    else moves the counter; and [N] reads of such a paste, stored in
    plaintext and without expiry, all succeed and leave [views = N]. *)
Theorem views_counts_successful_reads st now i salt b :
  st !! i = None → req_burnAfterRead b = false →
  let st0 := (post_pastes st now i salt b).1 in
  views <$> st0 !! i = Some 0 ∧
  (∀ rs, views <$> (run st0 rs).1 !! i
         = Some (successful_reads i rs (run st0 rs).2)) ∧
  (truthy (req_password b) = false → req_expiresIn b = None →
   ∀ pw ts, Z.of_nat (length ts) ≤ INT_MAX →
     Forall (λ a, status a = 200) (run st0 (reads i pw ts)).2 ∧
     views <$> (run st0 (reads i pw ts)).1 !! i
     = Some (Z.of_nat (length ts))).
Proof.
  intros Hi Hb st0.
  assert (∃ p, st0 !! i = Some p ∧ views p = 0 ∧ deleted p = false ∧
               burn_after_read p = false ∧
               is_encrypted p = truthy (req_password b) ∧
               (req_expiresIn b = None → expires_at p = None))
    as (p & Hp & Hv & Hd & Hbr & He & Hx).
  { unfold st0. rewrite post_pastes_fresh by done. simpl.
    rewrite lookup_insert_eq. eexists. split; [done|]. simpl.
    repeat split; try done. by intros ->. }
  assert (∀ rs, views <$> (run st0 rs).1 !! i
                = Some (successful_reads i rs (run st0 rs).2)) as Hcount.
  { intros rs. destruct (run_row st0 rs i p Hp) as (q & -> & Hq & _).
    simpl. f_equal. lia. }
  split; [by rewrite Hp; simpl; f_equal|]. split; [done|].
  intros Hpw Hexp pw ts Hn.
  assert (Forall (λ a, status a = 200) (run st0 (reads i pw ts)).2) as Hall.
  { apply (run_reads_plain _ _ _ _ p); try done.
    - by rewrite He.
    - by apply Hx.
    - lia. }
  split; [done|]. rewrite Hcount. f_equal.
  apply successful_reads_all; [|done].
  rewrite run_length. unfold reads. by rewrite length_fmap.
Qed.

Lemma delete_paste_not_found st i :
  select_not_deleted st i = None → delete_paste st i = (st, NotFoundError).
Proof. intros H. unfold delete_paste. by rewrite H. Qed.

Lemma select_not_deleted_deleted st i p :
  st !! i = Some p → deleted p = true → select_not_deleted st i = None.
Proof. intros Hp Hd. unfold select_not_deleted. by rewrite Hp, Hd. Qed.

(** C7: deleting an existing paste that is not deleted succeeds and sets
    [deleted]; deleting it again is answered not found and changes
    nothing; and whatever requests follow, the row stays deleted and a
    further delete is answered not found. *)
Theorem delete_paste_once st i p :
  st !! i = Some p → deleted p = false →
  let st1 := (delete_paste st i).1 in
  (delete_paste st i).2
  = res_status_json 200 (JMessage "Paste deleted successfully") ∧
  st1 !! i = Some (set_deleted true p) ∧
  delete_paste st1 i = (st1, NotFoundError) ∧
  ∀ rs, (∃ q, (run st1 rs).1 !! i = Some q ∧ deleted q = true) ∧
        delete_paste (run st1 rs).1 i = ((run st1 rs).1, NotFoundError).
Proof.
  intros Hp Hd st1.
  assert (delete_paste st i
          = (update_deleted st i,
             res_status_json 200 (JMessage "Paste deleted successfully")))
    as Hdel.
  { unfold delete_paste, select_not_deleted. by rewrite Hp, Hd. }
  assert (st1 !! i = Some (set_deleted true p)) as H1.
  { unfold st1. rewrite Hdel. simpl.
    by rewrite update_deleted_lookup, Hp. }
  split; [by rewrite Hdel|]. split; [done|]. split.
  - apply delete_paste_not_found.
    by apply (select_not_deleted_deleted _ _ (set_deleted true p)).
  - intros rs.
    destruct (run_row st1 rs i _ H1) as (q & Hq & _ & Hdq & _).
    specialize (Hdq eq_refl). split; [by exists q|].
    apply delete_paste_not_found.
    by apply (select_not_deleted_deleted _ _ q).
Qed.

End Traces.

Lemma views_counts_successful_reads_witness :
  let st0 :=
    (post_pastes (C:=demo_cipher) ∅ 0 "c0ffee00" "salt" body_plain).1 in
  views <$> st0 !! "c0ffee00" = Some 0 ∧
  (∀ rs, views <$> (run (C:=demo_cipher) st0 rs).1 !! "c0ffee00"
         = Some (successful_reads "c0ffee00" rs
                   (run (C:=demo_cipher) st0 rs).2)) ∧
  (truthy (req_password body_plain) = false →
   req_expiresIn body_plain = None →
   ∀ pw ts, Z.of_nat (length ts) ≤ INT_MAX →
     Forall (λ a, status a = 200)
            (run (C:=demo_cipher) st0 (reads "c0ffee00" pw ts)).2 ∧
     views <$> (run (C:=demo_cipher) st0 (reads "c0ffee00" pw ts)).1
               !! "c0ffee00"
     = Some (Z.of_nat (length ts))).
Proof.
  apply (views_counts_successful_reads (C:=demo_cipher) ∅ 0 "c0ffee00"
           "salt" body_plain); reflexivity.
Defined.

Lemma delete_paste_once_witness :
  let st1 := (delete_paste st_encrypted "a1b2c3d4").1 in
  (delete_paste st_encrypted "a1b2c3d4").2
  = res_status_json 200 (JMessage "Paste deleted successfully") ∧
  st1 !! "a1b2c3d4" = Some (set_deleted true row_encrypted) ∧
  delete_paste st1 "a1b2c3d4" = (st1, NotFoundError) ∧
  ∀ rs, (∃ q, (run (C:=demo_cipher) st1 rs).1 !! "a1b2c3d4" = Some q ∧
              deleted q = true) ∧
        delete_paste (run (C:=demo_cipher) st1 rs).1 "a1b2c3d4"
        = ((run (C:=demo_cipher) st1 rs).1, NotFoundError).
Proof.
  apply (delete_paste_once (C:=demo_cipher) st_encrypted "a1b2c3d4"
           row_encrypted); reflexivity.
Defined.

Lemma burn_after_read_is_served_twice_witness :
  let st0 :=
    (post_pastes (C:=demo_cipher) ∅ 0 "deadbeef" "salt" body_burn).1 in
  let p0 :=
    Paste "deadbeef" "secret" (Some "plain") None true false 0 0 false false
  in
  (run (C:=demo_cipher) st0 [GET_paste 1 "deadbeef" None]).1 !! "deadbeef"
  = Some (set_views 1 p0) ∧
  (run (C:=demo_cipher) st0
     [GET_paste 1 "deadbeef" None; GET_paste 2 "deadbeef" None;
      GET_paste 3 "deadbeef" None]).2
  = [res_json (JPaste p0); res_json (JPaste (set_views 1 p0));
     NotFoundError].
Proof.
  apply (burn_after_read_is_served_twice (C:=demo_cipher) ∅ 0 "deadbeef"
           "salt" body_burn 1 2 3 None); reflexivity.
Defined.

Lemma get_paste_failures_in_order_witness :
  let st' := (get_paste (C:=demo_cipher) st_encrypted 5 "a1b2c3d4"
                (Some "wrong")).1 in
  let r := (get_paste (C:=demo_cipher) st_encrypted 5 "a1b2c3d4"
              (Some "wrong")).2 in
  (r = NotFoundError ↔ select_live st_encrypted 5 "a1b2c3d4" = None) ∧
  (r = PasswordRequiredError ↔
     ∃ p, select_live st_encrypted 5 "a1b2c3d4" = Some p ∧
          is_encrypted p = true ∧ truthy (Some "wrong") = false) ∧
  (r = InvalidPasswordError ↔
     ∃ p, select_live st_encrypted 5 "a1b2c3d4" = Some p ∧
          is_encrypted p = true ∧ truthy (Some "wrong") = true ∧
          decryptContent (C:=demo_cipher) (content p)
            (str_of (Some "wrong")) = Throws) ∧
  (status r ≠ 200 → st' = st_encrypted).
Proof.
  apply (get_paste_failures_in_order (C:=demo_cipher) st_encrypted 5
           "a1b2c3d4" (Some "wrong")).
Defined.

Lemma visible_iff_live_within_list_limit_witness :
  (∀ p, live 0 p = true ↔
        deleted p = false ∧
        (expires_at p = None ∨ ∃ e, expires_at p = Some e ∧ 0 < e)) ∧
  ((get_paste (C:=demo_cipher) st_101 0 "0" None).2 ≠ NotFoundError ↔
     ∃ p, st_101 !! "0" = Some p ∧ live 0 p = true) ∧
  ((get_preview st_101 0 "0").2 ≠ NotFoundError ↔
     ∃ p, st_101 !! "0" = Some p ∧ live 0 p = true) ∧
  (st_101 !! "0" = None ∨
   (∃ p, st_101 !! "0" = Some p ∧
         (deleted p = true ∨ ∃ e, expires_at p = Some e ∧ e ≤ 0)) →
     get_paste (C:=demo_cipher) st_101 0 "0" None = (st_101, NotFoundError) ∧
     get_preview st_101 0 "0" = (st_101, NotFoundError)) ∧
  (∀ e, e ∈ entries (get_pastes st_101 0).2 →
     ∃ k p, st_101 !! k = Some p ∧ live 0 p = true ∧
            e = safe_of (list_row_of p)) ∧
  (∀ p, st_101 !! "0" = Some p → live 0 p = true →
     safe_of (list_row_of p) ∉ entries (get_pastes st_101 0).2 →
     length (entries (get_pastes st_101 0).2) = 100%nat ∧
     ∀ e, e ∈ entries (get_pastes st_101 0).2 → created_at p ≤ sp_createdAt e).
Proof.
  apply (visible_iff_live_within_list_limit (C:=demo_cipher) st_101 0 "0"
           None).
Defined.

(** C5, as stated, fails for the list: with 101 live pastes the oldest
    one is live and served by read-by-id and by preview, yet no element
    of the list carries its id. *)
Lemma live_paste_not_in_list :
  st_101 !! "0" = Some (row_numbered 0) ∧
  live 0 (row_numbered 0) = true ∧
  status (get_paste (C:=demo_cipher) st_101 0 "0" None).2 = 200 ∧
  status (get_preview st_101 0 "0").2 = 200 ∧
  "0" ∉ (λ e, lr_id (sp_row e)) <$> entries (get_pastes st_101 0).2.
Proof.
  repeat split; try by vm_compute.
  apply (bool_decide_unpack _). vm_compute. reflexivity.
Qed.

Lemma get_paste_reports_views_before_increment_witness :
  ∃ p p', st_encrypted !! "a1b2c3d4" = Some p ∧
    body (get_paste (C:=demo_cipher) st_encrypted 5 "a1b2c3d4"
            (Some "right")).2 = JPaste p' ∧
    views p' = views p ∧
    views <$> (get_paste (C:=demo_cipher) st_encrypted 5 "a1b2c3d4"
                 (Some "right")).1 !! "a1b2c3d4" = Some (views p + 1).
Proof.
  apply (get_paste_reports_views_before_increment (C:=demo_cipher)).
  reflexivity.
Defined.

Lemma empty_password_is_no_password_witness :
  (∃ q, (post_pastes (C:=demo_cipher) ∅ 0 "0badcafe" "salt"
           body_empty_password).1 !! "0badcafe" = Some q ∧
        content q = "hello" ∧ is_encrypted q = false) ∧
  (post_pastes (C:=demo_cipher) ∅ 0 "0badcafe" "salt"
     body_empty_password).2 = res_json (JId "0badcafe") ∧
  get_paste (C:=demo_cipher) st_encrypted 5 "a1b2c3d4" (Some "")
  = (st_encrypted, PasswordRequiredError).
Proof.
  apply (empty_password_is_no_password (C:=demo_cipher) ∅ 0 "0badcafe"
           "salt" body_empty_password st_encrypted 5 "a1b2c3d4"
           row_encrypted); reflexivity.
Defined.

Lemma decryptContent_encryptContent_witness :
  decryptContent (C:=demo_cipher)
    (encryptContent (C:=demo_cipher) "salt" "secret" "right") "right"
  = Returns "secret".
Proof.
  apply (decryptContent_encryptContent (C:=demo_cipher)
           (CryptoJS_contract0:=demo_cipher_contract)).
Defined.

Lemma get_paste_returns_any_decryption_witness :
  (get_paste (C:=demo_cipher) st_encrypted 5 "a1b2c3d4" (Some "nope")).2
  = res_json (JPaste (set_content "" row_encrypted)) ∧
  views <$> (get_paste (C:=demo_cipher) st_encrypted 5 "a1b2c3d4"
               (Some "nope")).1 !! "a1b2c3d4" = Some 1.
Proof.
  apply (get_paste_returns_any_decryption (C:=demo_cipher) st_encrypted 5
           "a1b2c3d4" (Some "nope") row_encrypted ""); try reflexivity.
  vm_compute. discriminate.
Defined.

(** * Further properties of the handlers *)

Section Single.
Context {C : CryptoJS}.

Lemma set_deleted_same p : set_deleted (deleted p) p = p.
Proof. by destruct p. Qed.

Lemma get_preview_table st now i : (get_preview st now i).1 = st.
Proof. unfold get_preview. by destruct (select_preview st now i). Qed.

(** A request that is not answered with status 200 leaves the table as it
    was, and so do the list and the preview whatever they answer. *)
Lemma handle_failure st rq :
  status (handle st rq).2 ≠ 200 ∨ is_write rq = false →
  (handle st rq).1 = st.
Proof.
  destruct rq as [now j salt b|now j pw|now|now j|j]; simpl.
  - unfold post_pastes. destruct (insert_paste st _); simpl; [|done].
    by intros [|].
  - destruct (get_paste_cases st now j pw)
      as [H | p H He Hp | p H He Hp Hd | p p' H He Hd Hu
          | p p' st1 H He Hd Hu]; simpl; try done.
    by intros [|].
  - done.
  - by rewrite get_preview_table.
  - unfold delete_paste. destruct (select_not_deleted st j); simpl; [|done].
    by intros [|].
Qed.

(** A request leaves every row alone whose id it does not name. *)
Lemma handle_frame st rq i :
  request_id rq ≠ Some i → (handle st rq).1 !! i = st !! i.
Proof.
  destruct rq as [now j salt b|now j pw|now|now j|j]; simpl; intros Hne.
  - unfold post_pastes, insert_paste. simpl.
    destruct (st !! j); simpl; [done|].
    apply lookup_insert_ne. congruence.
  - assert (j ≠ i) as Hj by congruence.
    destruct (get_paste_cases st now j pw)
      as [H | p H He Hp | p H He Hp Hd | p p' H He Hd Hu
          | p p' st1 H He Hd Hu]; simpl; try done.
    destruct (burn_after_read p && _).
    + rewrite update_deleted_other by done.
      by apply (update_views_other _ _ _ _ Hu).
    + by apply (update_views_other _ _ _ _ Hu).
  - done.
  - by rewrite get_preview_table.
  - unfold delete_paste. destruct (select_not_deleted st j); simpl; [|done].
    apply update_deleted_other. congruence.
Qed.

(** X1: a sequence of requests of which each one is either answered with
    a status other than 200 or is a list or a preview leaves the table
    exactly as it was: failed requests and summaries have no effect. *)
Theorem run_failures_and_summaries st rs :
  Forall2 (λ rq a, status a ≠ 200 ∨ is_write rq = false) rs (run st rs).2 →
  (run st rs).1 = st.
Proof.
  revert st. induction rs as [|rq rs IH]; intros st; [done|].
  rewrite run_cons. simpl. intros H.
  apply Forall2_cons in H as [Hrq Hrs].
  rewrite (handle_failure st rq Hrq) in *. by apply IH.
Qed.

(** X2: a sequence of requests none of which names the id [i] (creates
    that draw another id, reads, previews and deletes of other ids, lists)
    leaves the row of [i], present or not, untouched. *)
Theorem run_other_ids st rs i :
  Forall (λ rq, request_id rq ≠ Some i) rs →
  (run st rs).1 !! i = st !! i.
Proof.
  revert st. induction rs as [|rq rs IH]; intros st H; [done|].
  apply Forall_cons in H as [Hrq Hrs].
  rewrite run_cons. simpl. rewrite IH by done. by apply handle_frame.
Qed.

(** X3: the row a successful read-by-id leaves behind: [views] one higher,
    and [deleted] set exactly when the paste is burn-after-read and had
    already been viewed before this read; nothing else of it changes. *)
Theorem get_paste_row_after st now i pw :
  status (get_paste st now i pw).2 = 200 →
  ∃ p, st !! i = Some p ∧ live now p = true ∧
       (get_paste st now i pw).1 !! i
       = Some (set_deleted (burn_after_read p && (1 <=? views p))
                           (set_views (views p + 1) p)).
Proof.
  destruct (get_paste_cases st now i pw)
    as [H | p H He Hp | p H He Hp Hd | p p' H He Hd Hu
        | p p' st1 H He Hd Hu]; simpl; try done.
  intros _. apply select_live_Some in H as [H Hl].
  destruct (update_views_lookup _ _ _ _ Hu H) as [-> _].
  exists p. split; [done|]. split; [done|].
  destruct (burn_after_read p && _).
  - by rewrite update_deleted_lookup, lookup_insert_eq.
  - rewrite lookup_insert_eq. f_equal.
    unfold live in Hl. apply andb_true_iff in Hl as [_ Hdel].
    apply negb_true_iff in Hdel.
    rewrite <-(set_deleted_same (set_views _ p)) at 1. simpl.
    by rewrite Hdel.
Qed.

(** X4: once [views] has reached the largest value of its column, no
    read-by-id of that paste is answered with 200 any more and none changes
    the table; for a live plaintext paste the answer is the 500 of the
    handler's outer [catch]. *)
Theorem get_paste_counter_full st now i pw p :
  st !! i = Some p → views p = INT_MAX →
  status (get_paste st now i pw).2 ≠ 200 ∧
  (get_paste st now i pw).1 = st ∧
  (live now p = true → is_encrypted p = false →
   (get_paste st now i pw).2
   = res_status_json 500 (JError "Failed to fetch paste")).
Proof.
  intros Hp Hv.
  destruct (get_paste_cases st now i pw)
    as [H | q H He Hw | q H He Hw Hd | q q' H He Hd Hu
        | q q' st1 H He Hd Hu]; simpl.
  - repeat split; try done. intros Hl _.
    apply select_live_None in H as [H|(q & Hq & Hf)]; congruence.
  - repeat split; try done. intros _ Hf.
    apply select_live_Some in H as [H _]. congruence.
  - repeat split; try done. intros _ Hf.
    apply select_live_Some in H as [H _]. congruence.
  - done.
  - apply select_live_Some in H as [H _].
    destruct (update_views_lookup _ _ _ _ Hu H) as [_ Hle].
    assert (q = p) as -> by congruence. rewrite Hv in Hle.
    unfold INT_MAX in Hle. lia.
Qed.

(** X5: on a paste stored in plaintext the [password] parameter plays no
    part: the read-by-id answers, and leaves the table, the same with any
    two passwords. *)
Theorem get_paste_plain_ignores_password st now i pw1 pw2 :
  (∀ p, st !! i = Some p → is_encrypted p = false) →
  get_paste st now i pw1 = get_paste st now i pw2.
Proof.
  intros Hplain. unfold get_paste.
  destruct (select_live st now i) as [p|] eqn:H; [|done].
  apply select_live_Some in H as [H _].
  unfold try_decrypt. by rewrite (Hplain p H).
Qed.

(** X6: the delete handler answers not found exactly when the id is absent
    or its row is already deleted, and then changes nothing; it does not
    look at the expiry, so an expired paste that read-by-id reports as not
    found is still deleted with status 200. *)
Theorem delete_paste_not_found_iff st now i pw :
  ((delete_paste st i).2 = NotFoundError ↔
     st !! i = None ∨ ∃ p, st !! i = Some p ∧ deleted p = true) ∧
  ((delete_paste st i).2 = NotFoundError → (delete_paste st i).1 = st) ∧
  (∀ p e, st !! i = Some p → deleted p = false →
          expires_at p = Some e → e ≤ now →
          get_paste st now i pw = (st, NotFoundError) ∧
          delete_paste st i
          = (<[i := set_deleted true p]> st,
             res_status_json 200 (JMessage "Paste deleted successfully"))).
Proof.
  unfold delete_paste, select_not_deleted. split; [|split].
  - destruct (st !! i) as [p|] eqn:Hp; simpl.
    + destruct (deleted p) eqn:Hd; simpl.
      * split; [|done]. intros _. right. by exists p.
      * split; [done|]. intros [|(q & [= <-] & ?)]; congruence.
    + split; [by left|done].
  - destruct (st !! i) as [p|]; simpl; [|done].
    by destruct (deleted p).
  - intros p e Hp Hd He Hle. rewrite Hp, Hd. simpl. split.
    + apply get_paste_not_found, select_live_None. right.
      exists p. split; [done|]. apply live_false. right. by exists e.
    + f_equal. unfold update_deleted. apply map_eq. intros j.
      destruct (decide (i = j)) as [<-|].
      * by rewrite lookup_alter_eq, lookup_insert_eq, Hp.
      * by rewrite lookup_alter_ne, lookup_insert_ne.
Qed.

End Single.

(** ** What a sequence of requests can do to one row *)

Section Rows.
Context {C : CryptoJS}.

(** The three things one request can do to an existing row: nothing, count
    a view (and burn), or delete. *)
Lemma handle_row_cases st rq i p :
  st !! i = Some p →
  ((handle st rq).1 !! i = Some p ∧
   is_read_of i rq && (status (handle st rq).2 =? 200) = false) ∨
  (deleted p = false ∧
   is_read_of i rq && (status (handle st rq).2 =? 200) = true ∧
   (handle st rq).1 !! i
   = Some (set_deleted (burn_after_read p && (1 <=? views p))
                       (set_views (views p + 1) p))) ∨
  (deleted p = false ∧
   is_read_of i rq && (status (handle st rq).2 =? 200) = false ∧
   (handle st rq).1 !! i = Some (set_deleted true p)).
Proof.
  intros Hp. destruct (decide (request_id rq = Some i)) as [Hi|Hi].
  2: { left. rewrite handle_frame, Hp by done. split; [done|].
       destruct rq; try done. simpl in *.
       rewrite bool_decide_eq_false_2; [done|congruence]. }
  destruct rq as [now j salt b|now j pw|now|now j|j]; simpl in Hi;
    try injection Hi as ->.
  - left. rewrite (handle_failure st (POST_pastes now i salt b)), Hp; [done|].
    left. simpl. unfold post_pastes, insert_paste. simpl. by rewrite Hp.
  - simpl. destruct (get_paste_cases st now i pw)
      as [H | q H He Hw | q H He Hw Hd | q q' H He Hd Hu
          | q q' st1 H He Hd Hu]; simpl;
      try (left; by rewrite andb_false_r).
    right. left. apply select_live_Some in H as [H Hl].
    assert (q = p) as -> by congruence.
    destruct (update_views_lookup _ _ _ _ Hu H) as [-> _].
    unfold live in Hl. apply andb_true_iff in Hl as [_ Hdel].
    apply negb_true_iff in Hdel. split; [done|].
    rewrite bool_decide_eq_true_2 by done. split; [done|].
    destruct (burn_after_read p && _).
    + by rewrite update_deleted_lookup, lookup_insert_eq.
    + rewrite lookup_insert_eq. f_equal.
      rewrite <-(set_deleted_same (set_views _ p)) at 1. simpl.
      by rewrite Hdel.
  - done.
  - left. simpl. by rewrite get_preview_table.
  - simpl. unfold delete_paste, select_not_deleted. rewrite Hp.
    destruct (deleted p) eqn:Hd; simpl; [by left|].
    right. right. by rewrite update_deleted_lookup, Hp.
Qed.

Lemma successful_reads_nonneg i rs answers :
  0 ≤ successful_reads i rs answers.
Proof.
  revert answers. induction rs as [|rq rs IH]; intros [|a answers];
    simpl; try done.
  specialize (IH answers). destruct (_ && _); lia.
Qed.

(** X7: rows are never removed and never rewritten. After any sequence of
    requests a row that existed still exists with the same id, content,
    language, expiry, flags and creation time; its [views] has not
    decreased; and once [deleted] is set it stays set and [views] no
    longer moves. *)
Theorem run_row_persists st rs i p :
  st !! i = Some p →
  ∃ q, (run st rs).1 !! i = Some q ∧
       at_birth q = at_birth p ∧
       views p ≤ views q ∧
       (deleted p = true → deleted q = true ∧ views q = views p).
Proof.
  revert st p. induction rs as [|rq rs IH]; intros st p Hp.
  - exists p. by simpl.
  - rewrite run_cons. simpl.
    destruct (handle_row_cases st rq i p Hp)
      as [[Hq _]|[(Hd & _ & Hq)|(Hd & _ & Hq)]];
      destruct (IH _ _ Hq) as (q & Hq' & Hb & Hv & Hdel);
      exists q; (split; [done|]); simpl in *.
    + done.
    + repeat split; [done|lia|congruence|congruence].
    + repeat split; [done|lia|congruence|congruence].
Qed.

(** X8: an id is never free again. Once a row with id [i] exists, a create
    request that draws [i] is answered with 500 and stores nothing,
    whatever requests came in between, deletes of [i] included. *)
Theorem post_pastes_id_taken st rs i p now salt b :
  st !! i = Some p →
  post_pastes (run st rs).1 now i salt b
  = ((run st rs).1, res_status_json 500 (JError "Failed to create paste")).
Proof.
  intros Hp.
  assert (∃ q, (run st rs).1 !! i = Some q) as [q Hq].
  { revert st p Hp. induction rs as [|rq rs IH]; intros st p Hp.
    - by exists p.
    - rewrite run_cons. simpl.
      destruct (handle_row_cases st rq i p Hp)
        as [[Hq _]|[(_ & _ & Hq)|(_ & _ & Hq)]]; by apply (IH _ _ Hq). }
  unfold post_pastes, insert_paste. simpl. by rewrite Hq.
Qed.

(** The counter of a burn-after-read row never passes 2, and at 2 the row
    is deleted. *)
Lemma handle_burn_bound st rq i p :
  st !! i = Some p → burn_after_read p = true →
  views p ≤ 2 ∧ (views p = 2 → deleted p = true) →
  ∃ q, (handle st rq).1 !! i = Some q ∧ burn_after_read q = true ∧
       (views q ≤ 2 ∧ (views q = 2 → deleted q = true)) ∧
       views q
       = views p + (if is_read_of i rq && (status (handle st rq).2 =? 200)
                    then 1 else 0).
Proof.
  intros Hp Hb [Hv Hd].
  destruct (handle_row_cases st rq i p Hp)
    as [[Hq ->]|[(Hdel & -> & Hq)|(Hdel & -> & Hq)]];
    eexists; (split; [done|]); simpl.
  - repeat split; try done. lia.
  - rewrite Hb. simpl.
    assert (views p ≤ 1) as Hle.
    { destruct (decide (views p = 2)) as [E|]; [|lia].
      rewrite (Hd E) in Hdel. done. }
    split; [done|]. split; [|done]. split; [lia|].
    intros E. assert (views p = 1) as -> by lia. done.
  - repeat split; try done. lia.
Qed.

(** X9: a paste created with [burnAfterRead] is served by read-by-id at
    most twice, whatever the requests that follow, their passwords and
    their order; its stored [views] is that number of reads, and once it
    is 2 the row is deleted. *)
Theorem burn_after_read_at_most_twice st now i salt b rs :
  st !! i = None → req_burnAfterRead b = true →
  let st0 := (post_pastes st now i salt b).1 in
  successful_reads i rs (run st0 rs).2 ≤ 2 ∧
  ∃ q, (run st0 rs).1 !! i = Some q ∧
       views q = successful_reads i rs (run st0 rs).2 ∧
       (views q = 2 → deleted q = true).
Proof.
  intros Hi Hb st0.
  assert (∃ p, st0 !! i = Some p ∧ burn_after_read p = true ∧ views p = 0)
    as (p & Hp & Hbp & Hv).
  { unfold st0. rewrite post_pastes_fresh by done. simpl.
    rewrite lookup_insert_eq. by eexists. }
  assert (views p ≤ 2 ∧ (views p = 2 → deleted p = true)) as Hinv.
  { rewrite Hv. split; [lia|]. intros. lia. }
  clearbody st0. clear Hi Hb.
  assert (∃ q, (run st0 rs).1 !! i = Some q ∧
               (views q ≤ 2 ∧ (views q = 2 → deleted q = true)) ∧
               views q = views p + successful_reads i rs (run st0 rs).2)
    as (q & Hq & [Hq2 Hqd] & Hqv).
  { clear Hv. revert st0 p Hp Hbp Hinv.
    induction rs as [|rq rs IH]; intros st0 p Hp Hbp Hinv.
    - exists p. simpl. split; [done|]. split; [done|lia].
    - rewrite run_cons. simpl.
      destruct (handle_burn_bound st0 rq i p Hp Hbp Hinv)
        as (q & Hq & Hbq & Hinvq & Hvq).
      destruct (IH _ _ Hq Hbq Hinvq) as (q' & Hq' & Hinv' & Hv').
      exists q'. split; [done|]. split; [done|]. lia. }
  rewrite Hv in Hqv. simpl in Hqv. split; [lia|].
  exists q. split; [done|]. split; [lia|done].
Qed.

End Rows.

(** ** The tables requests can build, and their lists *)

Section Reachable.
Context {C : CryptoJS}.

Lemma handle_table_ok st rq : table_ok st → table_ok (handle st rq).1.
Proof.
  intros Hok k q Hq. destruct (st !! k) as [p|] eqn:Hp.
  - destruct (Hok k p Hp) as [Hid Hv].
    destruct (handle_row_cases st rq k p Hp)
      as [[Hq' _]|[(_ & Hs & Hq')|(_ & _ & Hq')]];
      rewrite Hq' in Hq; injection Hq as <-; simpl; try done.
    split; [done|]. split; [lia|].
    destruct rq as [now j salt b|now j pw|now|now j|j]; try done.
    simpl in Hs. apply andb_true_iff in Hs as [Hj Hs].
    apply bool_decide_eq_true in Hj as ->.
    destruct (get_paste_cases st now k pw)
      as [H | p1 H He Hw | p1 H He Hw Hd | p1 p' H He Hd Hu
          | p1 p' st1 H He Hd Hu]; simpl in Hs; try done.
    apply select_live_Some in H as [H _].
    destruct (update_views_lookup _ _ _ _ Hu H) as [_ Hle]. congruence.
  - destruct (decide (request_id rq = Some k)) as [Hk|Hk].
    2: { rewrite handle_frame, Hp in Hq; done. }
    destruct rq as [now j salt b|now j pw|now|now j|j]; simpl in Hk;
      try injection Hk as ->; simpl in Hq.
    + unfold post_pastes, insert_paste in Hq. simpl in Hq.
      rewrite Hp in Hq. simpl in Hq. rewrite lookup_insert_eq in Hq.
      injection Hq as <-. simpl. unfold INT_MAX. split; [done|lia].
    + rewrite get_paste_not_found in Hq; [simpl in Hq; congruence|].
      apply select_live_None. by left.
    + done.
    + rewrite get_preview_table in Hq. congruence.
    + rewrite delete_paste_not_found in Hq; [simpl in Hq; congruence|].
      unfold select_not_deleted. by rewrite Hp.
Qed.

(** X10: in every table built from the empty one by requests, each row is
    stored under its own id (so a read-by-id answers with the id that was
    asked for) and its [views] lies between 0 and the largest value of
    the column. *)
Theorem run_table_ok rs :
  table_ok (run ∅ rs).1 ∧
  ∀ now i pw p',
    (get_paste (run ∅ rs).1 now i pw).2 = res_json (JPaste p') → id p' = i.
Proof.
  assert (∀ st, table_ok st → table_ok (run st rs).1) as H.
  { induction rs as [|rq rs IH]; intros st Hok; [done|].
    rewrite run_cons. simpl. by apply IH, handle_table_ok. }
  assert (table_ok (run ∅ rs).1) as Hok.
  { apply H. intros k p Hp. by rewrite lookup_empty in Hp. }
  split; [done|]. intros now i pw p'.
  destruct (get_paste_cases (run ∅ rs).1 now i pw)
    as [E | p E He Hw | p E He Hw Hd | p p1 E He Hd Hu
        | p p1 st1 E He Hd Hu]; simpl; try done.
  intros [= <-]. apply select_live_Some in E as [E _].
  destruct (Hok _ _ E) as [<- _].
  by apply try_decrypt_fields in Hd as (_ & _ & _ & _ & ?).
Qed.



End Reachable.

Lemma listed_ids_get_pastes st now :
  listed_ids (get_pastes st now).2 = id <$> listed st now.
Proof.
  unfold listed_ids. rewrite entries_get_pastes.
  rewrite <-!list_fmap_compose. done.
Qed.

Lemma live_rows_NoDup st now : table_ok st → NoDup (live_rows st now).
Proof.
  intros Hok. unfold live_rows. apply NoDup_filter.
  apply NoDup_fmap_2_strong; [|apply NoDup_map_to_list].
  intros [k1 p1] [k2 p2] H1 H2. simpl. intros <-.
  apply elem_of_map_to_list in H1, H2.
  destruct (Hok _ _ H1) as [<- _]. by destruct (Hok _ _ H2) as [<- _].
Qed.

Lemma listed_NoDup st now : table_ok st → NoDup (listed st now).
Proof.
  intros Hok. unfold listed.
  apply (sublist_NoDup _ (merge_sort created_desc (live_rows st now)));
    [|apply sublist_take].
  rewrite merge_sort_Permutation. by apply live_rows_NoDup.
Qed.

(** X11: while rows are stored under their own ids, as the primary key has
    it, the list shows no id twice, and an id it shows is that of a live
    row of the table: deleted and expired pastes are never listed. *)
Theorem get_pastes_ids st now :
  table_ok st →
  NoDup (listed_ids (get_pastes st now).2) ∧
  ∀ i, i ∈ listed_ids (get_pastes st now).2 →
       ∃ p, st !! i = Some p ∧ live now p = true.
Proof.
  intros Hok. rewrite listed_ids_get_pastes. split.
  - apply NoDup_fmap_2_strong; [|by apply listed_NoDup].
    intros p q Hp Hq Hid.
    apply listed_live in Hp as [[kp Hp] _], Hq as [[kq Hq] _].
    destruct (Hok _ _ Hp) as [Ep _], (Hok _ _ Hq) as [Eq _].
    congruence.
  - intros i Hi. apply list_elem_of_fmap in Hi as (p & -> & Hp).
    apply listed_live in Hp as [[k Hk] Hl].
    destruct (Hok _ _ Hk) as [-> _]. by exists p.
Qed.

(** X12: the list response is ordered by [createdAt], newest first, and
    has at most 100 elements, whatever the table holds. *)
Theorem get_pastes_sorted_and_capped st now :
  StronglySorted newest_first (entries (get_pastes st now).2) ∧
  (length (entries (get_pastes st now).2) ≤ 100)%nat.
Proof.
  rewrite entries_get_pastes. split.
  - rewrite <-list_fmap_compose.
    apply (StronglySorted_fmap _ created_desc); [by intros p q|].
    apply listed_sorted.
  - rewrite !length_fmap. apply listed_length.
Qed.


Lemma substring_0_le (n : nat) (s : string) :
  (String.length (String.substring 0 n s) ≤ n)%nat.
Proof.
  revert s. induction n as [|n IH]; intros [|a s]; simpl; try lia.
  specialize (IH s). lia.
Qed.

(** X14: a summary is short and never carries an encrypted body. The
    content of a preview has at most 103 characters and that of a list
    element at most 106; for an encrypted paste both are the placeholder
    of the query, and the list element has no [isEncrypted] value while
    the preview carries the flag of the row. *)
Theorem summary_content_bounded p :
  (String.length (pr_content (preview_row_of p)) ≤ 103)%nat ∧
  (String.length (sp_content (safe_of (list_row_of p))) ≤ 106)%nat ∧
  sp_isEncrypted (safe_of (list_row_of p)) = None ∧
  pr_is_encrypted (preview_row_of p) = is_encrypted p ∧
  (is_encrypted p = true →
   pr_content (preview_row_of p) = "[Encrypted Content]" ∧
   sp_content (safe_of (list_row_of p)) = "[Encrypted Content]").
Proof.
  assert (String.length (sql_content p) ≤ 103)%nat as Hsql.
  { unfold sql_content. destruct (is_encrypted p); [simpl; lia|].
    rewrite string_length_app. pose proof (substring_0_le 100 (content p)).
    destruct (_ <? _)%nat; simpl; lia. }
  split; [done|]. split.
  - unfold safe_of, list_row_of, lr_is_encrypted. simpl.
    rewrite string_length_app. destruct (_ <? _)%nat; simpl; lia.
  - split; [done|]. split; [done|]. intros He.
    destruct (safe_of_content_encrypted p He). done.
Qed.

(** ** Ids *)

Lemma bytes_of_hex_byte (b : Byte.byte) :
  hex_value (hex_digit (Byte.to_N b / 16)) = Some (Byte.to_N b / 16)%N ∧
  hex_value (hex_digit (Byte.to_N b mod 16)) = Some (Byte.to_N b mod 16)%N ∧
  Byte.of_N (16 * (Byte.to_N b / 16) + Byte.to_N b mod 16) = Some b.
Proof. destruct b; vm_compute; done. Qed.

Lemma bytes_of_hex_toString (bytes : list Byte.byte) :
  bytes_of_hex (Buffer_toString_hex bytes) = Some bytes.
Proof.
  induction bytes as [|b bytes IH]; [done|].
  destruct (bytes_of_hex_byte b) as (Hh & Hl & Hb).
  cbn [Buffer_toString_hex bytes_of_hex]. by rewrite Hh, Hl, IH, Hb.
Qed.

Lemma Buffer_toString_hex_inj (bytes1 bytes2 : list Byte.byte) :
  Buffer_toString_hex bytes1 = Buffer_toString_hex bytes2 → bytes1 = bytes2.
Proof.
  intros H. apply (f_equal bytes_of_hex) in H.
  rewrite !bytes_of_hex_toString in H. by injection H.
Qed.

(** X17: the id of a new paste. The hexadecimal rendering of the drawn
    bytes has two characters per byte, so eight for the four bytes of the
    handler, each a digit or a letter from a to f, and two renderings are
    equal only for equal bytes. *)
Theorem Buffer_toString_hex_id (bytes1 bytes2 : list Byte.byte) :
  String.length (Buffer_toString_hex bytes1) = (2 * length bytes1)%nat ∧
  Forall (λ c, is_Some (hex_value c))
         (String.list_ascii_of_string (Buffer_toString_hex bytes1)) ∧
  (Buffer_toString_hex bytes1 = Buffer_toString_hex bytes2 →
   bytes1 = bytes2).
Proof.
  split; [|split].
  - induction bytes1 as [|b bytes IH]; [done|]. simpl. rewrite IH. lia.
  - induction bytes1 as [|b bytes IH]; [constructor|].
    destruct (bytes_of_hex_byte b) as (Hh & Hl & _). simpl.
    by repeat constructor.
  - apply Buffer_toString_hex_inj.
Qed.

(** X18: two create requests in a row, the first on a free id. The second
    is answered with its own id and both pastes are stored when it draws
    other bytes whose id is free too; it is answered with 500 and stores
    nothing when it draws the same bytes again. *)
Theorem post_pastes_drawing_twice {C : CryptoJS} st now1 now2 bytes1 bytes2
    salt1 salt2 b1 b2 :
  st !! Buffer_toString_hex bytes1 = None →
  let r1 := post_pastes_drawing st now1 bytes1 salt1 b1 in
  r1.2 = res_json (JId (Buffer_toString_hex bytes1)) ∧
  post_pastes_drawing r1.1 now2 bytes1 salt2 b2
  = (r1.1, res_status_json 500 (JError "Failed to create paste")) ∧
  (bytes1 ≠ bytes2 → st !! Buffer_toString_hex bytes2 = None →
   let r2 := post_pastes_drawing r1.1 now2 bytes2 salt2 b2 in
   r2.2 = res_json (JId (Buffer_toString_hex bytes2)) ∧
   is_Some (r2.1 !! Buffer_toString_hex bytes1) ∧
   is_Some (r2.1 !! Buffer_toString_hex bytes2)).
Proof.
  intros H1 r1. unfold r1, post_pastes_drawing.
  rewrite post_pastes_fresh by done. simpl. split; [done|]. split.
  - unfold post_pastes, insert_paste. simpl. by rewrite lookup_insert_eq.
  - intros Hne H2.
    assert (Buffer_toString_hex bytes1 ≠ Buffer_toString_hex bytes2) as Hid.
    { intros E. by apply Hne, Buffer_toString_hex_inj. }
    rewrite post_pastes_fresh by (by rewrite lookup_insert_ne). simpl.
    split; [done|]. split.
    + rewrite lookup_insert_ne, lookup_insert_eq by done. by eexists.
    + rewrite lookup_insert_eq. by eexists.
Qed.

(** ** The schema *)

Lemma initializeSchema_fresh db :
  db !! "pastes" = None →
  initializeSchema db
  = Some (<["pastes" := pastes_columns ++ [is_encrypted_column]]> db).
Proof.
  intros H. unfold initializeSchema, create_table_if_not_exists,
    add_column_if_not_exists. rewrite H, lookup_insert_eq.
  rewrite bool_decide_eq_false_2.
  - by rewrite insert_insert_eq.
  - apply (bool_decide_unpack _). by vm_compute.
Qed.

Lemma initializeSchema_has_column db cols :
  db !! "pastes" = Some cols → "is_encrypted" ∈ col_name <$> cols →
  initializeSchema db = Some db.
Proof.
  intros H Hin. unfold initializeSchema, create_table_if_not_exists,
    add_column_if_not_exists. rewrite H, H.
  by rewrite bool_decide_eq_true_2.
Qed.

Lemma initializeSchema_adds_column db cols :
  db !! "pastes" = Some cols → "is_encrypted" ∉ col_name <$> cols →
  initializeSchema db = Some (<["pastes" := cols ++ [is_encrypted_column]]> db).
Proof.
  intros H Hin. unfold initializeSchema, create_table_if_not_exists,
    add_column_if_not_exists. rewrite H, H.
  by rewrite bool_decide_eq_false_2.
Qed.

(** X19: [initializeSchema] on any database. It does not end the process
    over its two statements; afterwards the table [pastes] exists and has
    the column [is_encrypted], after the columns it had before, which are
    all kept; no other table is touched; a database without the table gets
    the ten columns the handlers name; and running it again changes
    nothing. *)
Theorem initializeSchema_idempotent db :
  ∃ db' cols,
    initializeSchema db = Some db' ∧
    initializeSchema db' = Some db' ∧
    db' !! "pastes" = Some cols ∧
    "is_encrypted" ∈ col_name <$> cols ∧
    (∀ old, db !! "pastes" = Some old → old `prefix_of` cols) ∧
    (db !! "pastes" = None →
     cols = pastes_columns ++ [is_encrypted_column]) ∧
    (∀ t, t ≠ "pastes" → db' !! t = db !! t).
Proof.
  destruct (db !! "pastes") as [old|] eqn:H.
  - destruct (decide ("is_encrypted" ∈ col_name <$> old)) as [Hin|Hin].
    + exists db, old. rewrite (initializeSchema_has_column _ old) by done.
      repeat split; try done. by intros ? [= <-].
    + exists (<["pastes" := old ++ [is_encrypted_column]]> db),
        (old ++ [is_encrypted_column]).
      rewrite (initializeSchema_adds_column _ old) by done.
      split; [done|]. split.
      { apply (initializeSchema_has_column _ (old ++ [is_encrypted_column])).
        - by rewrite lookup_insert_eq.
        - rewrite fmap_app. apply elem_of_app. right. by left. }
      split; [by rewrite lookup_insert_eq|]. split.
      { rewrite fmap_app. apply elem_of_app. right. by left. }
      split; [intros ? [= <-]; by apply prefix_app_r|].
      split; [done|]. intros t Ht. by rewrite lookup_insert_ne.
  - exists (<["pastes" := pastes_columns ++ [is_encrypted_column]]> db),
      (pastes_columns ++ [is_encrypted_column]).
    rewrite initializeSchema_fresh by done.
    split; [done|]. split.
    { apply (initializeSchema_has_column _
               (pastes_columns ++ [is_encrypted_column])).
      - by rewrite lookup_insert_eq.
      - rewrite fmap_app. apply elem_of_app. right. by left. }
    split; [by rewrite lookup_insert_eq|]. split.
    { rewrite fmap_app. apply elem_of_app. right. by left. }
    split; [done|]. split; [done|].
    intros t Ht. by rewrite lookup_insert_ne.
Qed.

(** ** Not found is final *)

Section Final.
Context {C : CryptoJS}.

Lemma run_table_ok_from st rs : table_ok st → table_ok (run st rs).1.
Proof.
  revert st. induction rs as [|rq rs IH]; intros st Hok; [done|].
  rewrite run_cons. simpl. by apply IH, handle_table_ok.
Qed.

Lemma live_false_later t t' p q :
  live t p = false → t ≤ t' → at_birth q = at_birth p →
  (deleted p = true → deleted q = true) → live t' q = false.
Proof.
  intros Hl Ht Hb Hd. apply live_false. apply live_false in Hl.
  apply (f_equal expires_at) in Hb. simpl in Hb.
  destruct Hl as [Hl|(e & He & Hle)]; [left; by apply Hd|].
  right. exists e. split; [congruence|lia].
Qed.

(** X20: a paste that is deleted or expired does not come back. If the
    row of [i] is not live at time [t], then after any further requests
    and at any later time read-by-id and preview of [i] answer not found,
    and, rows being stored under their ids, the list does not show [i]. *)
Theorem not_live_is_final st rs i p t t' pw :
  st !! i = Some p → live t p = false → t ≤ t' →
  get_paste (run st rs).1 t' i pw = ((run st rs).1, NotFoundError) ∧
  get_preview (run st rs).1 t' i = ((run st rs).1, NotFoundError) ∧
  (table_ok st → i ∉ listed_ids (get_pastes (run st rs).1 t').2).
Proof.
  intros Hp Hl Ht.
  destruct (run_row st rs i p Hp) as (q & Hq & _ & Hd & Hb).
  pose proof (live_false_later t t' p q Hl Ht Hb Hd) as Hlq.
  assert (select_live (run st rs).1 t' i = None) as Hsel.
  { apply select_live_None. right. by exists q. }
  split; [by apply get_paste_not_found|].
  split; [by apply get_preview_not_found|].
  intros Hok Hin. rewrite listed_ids_get_pastes in Hin.
  apply list_elem_of_fmap in Hin as (q' & -> & Hq').
  apply listed_live in Hq' as [[k Hk] Hlive].
  destruct (run_table_ok_from st rs Hok _ _ Hk) as [<- _].
  congruence.
Qed.

End Final.

(** ** The further properties on the sample requests *)

Lemma run_failures_and_summaries_witness :
  (run (C:=demo_cipher) st_encrypted refused_requests).1 = st_encrypted.
Proof.
  apply (run_failures_and_summaries (C:=demo_cipher) st_encrypted
           refused_requests).
  match goal with
  | |- Forall2 _ _ ?l => let l' := eval vm_compute in l in change l with l'
  end.
  unfold refused_requests.
  constructor; [by left|]. constructor; [by left|].
  constructor; [by right|]. constructor; [by right|].
  constructor; [by left|]. constructor; [by left|]. constructor.
Defined.

Lemma run_other_ids_witness :
  (run (C:=demo_cipher) st_encrypted other_requests).1 !! "a1b2c3d4"
  = st_encrypted !! "a1b2c3d4".
Proof.
  apply (run_other_ids (C:=demo_cipher) st_encrypted other_requests
           "a1b2c3d4").
  unfold other_requests. repeat constructor; done.
Defined.

Lemma get_paste_row_after_witness :
  ∃ p, st_encrypted !! "a1b2c3d4" = Some p ∧ live 5 p = true ∧
       (get_paste (C:=demo_cipher) st_encrypted 5 "a1b2c3d4"
          (Some "right")).1 !! "a1b2c3d4"
       = Some (set_deleted (burn_after_read p && (1 <=? views p))
                           (set_views (views p + 1) p)).
Proof.
  apply (get_paste_row_after (C:=demo_cipher) st_encrypted 5 "a1b2c3d4"
           (Some "right")).
  reflexivity.
Defined.

Lemma get_paste_counter_full_witness :
  status (get_paste (C:=demo_cipher) st_full 5 "7fffffff" None).2 ≠ 200 ∧
  (get_paste (C:=demo_cipher) st_full 5 "7fffffff" None).1 = st_full ∧
  (live 5 row_full = true → is_encrypted row_full = false →
   (get_paste (C:=demo_cipher) st_full 5 "7fffffff" None).2
   = res_status_json 500 (JError "Failed to fetch paste")).
Proof.
  apply (get_paste_counter_full (C:=demo_cipher) st_full 5 "7fffffff" None
           row_full); reflexivity.
Defined.

Lemma get_paste_plain_ignores_password_witness :
  get_paste (C:=demo_cipher) st_full 5 "7fffffff" None
  = get_paste (C:=demo_cipher) st_full 5 "7fffffff" (Some "any").
Proof.
  apply (get_paste_plain_ignores_password (C:=demo_cipher) st_full 5
           "7fffffff" None (Some "any")).
  unfold st_full. intros p [_ <-]%lookup_singleton_Some. reflexivity.
Defined.

Lemma run_row_persists_witness :
  ∃ q, (run (C:=demo_cipher) st_encrypted mixed_requests).1 !! "a1b2c3d4"
       = Some q ∧
       at_birth q = at_birth row_encrypted ∧
       views row_encrypted ≤ views q ∧
       (deleted row_encrypted = true →
        deleted q = true ∧ views q = views row_encrypted).
Proof.
  apply (run_row_persists (C:=demo_cipher) st_encrypted mixed_requests
           "a1b2c3d4" row_encrypted).
  reflexivity.
Defined.

Lemma post_pastes_id_taken_witness :
  post_pastes (C:=demo_cipher)
    (run (C:=demo_cipher) st_encrypted mixed_requests).1 9 "a1b2c3d4" "salt"
    body_plain
  = ((run (C:=demo_cipher) st_encrypted mixed_requests).1,
     res_status_json 500 (JError "Failed to create paste")).
Proof.
  apply (post_pastes_id_taken (C:=demo_cipher) st_encrypted mixed_requests
           "a1b2c3d4" row_encrypted 9 "salt" body_plain).
  reflexivity.
Defined.

Lemma burn_after_read_at_most_twice_witness :
  let st0 :=
    (post_pastes (C:=demo_cipher) ∅ 0 "deadbeef" "salt" body_burn).1 in
  successful_reads "deadbeef" burn_requests
    (run (C:=demo_cipher) st0 burn_requests).2 ≤ 2 ∧
  ∃ q, (run (C:=demo_cipher) st0 burn_requests).1 !! "deadbeef" = Some q ∧
       views q = successful_reads "deadbeef" burn_requests
                   (run (C:=demo_cipher) st0 burn_requests).2 ∧
       (views q = 2 → deleted q = true).
Proof.
  apply (burn_after_read_at_most_twice (C:=demo_cipher) ∅ 0 "deadbeef"
           "salt" body_burn burn_requests); reflexivity.
Defined.

Lemma get_pastes_ids_witness :
  NoDup (listed_ids (get_pastes st_private 5).2) ∧
  ∀ i, i ∈ listed_ids (get_pastes st_private 5).2 →
       ∃ p, st_private !! i = Some p ∧ live 5 p = true.
Proof.
  apply (get_pastes_ids st_private 5).
  unfold st_private. intros k p [<- <-]%lookup_singleton_Some.
  split; [reflexivity|]. unfold INT_MAX. simpl. lia.
Defined.




Lemma post_pastes_drawing_twice_witness :
  let r1 := post_pastes_drawing (C:=demo_cipher) ∅ 0 bytes_deadbeef "salt"
              body_burn in
  r1.2 = res_json (JId (Buffer_toString_hex bytes_deadbeef)) ∧
  post_pastes_drawing (C:=demo_cipher) r1.1 1 bytes_deadbeef "salt"
    body_plain
  = (r1.1, res_status_json 500 (JError "Failed to create paste")) ∧
  (bytes_deadbeef ≠ bytes_c0ffee00 →
   (∅ : store) !! Buffer_toString_hex bytes_c0ffee00 = None →
   let r2 := post_pastes_drawing (C:=demo_cipher) r1.1 1 bytes_c0ffee00
               "salt" body_plain in
   r2.2 = res_json (JId (Buffer_toString_hex bytes_c0ffee00)) ∧
   is_Some (r2.1 !! Buffer_toString_hex bytes_deadbeef) ∧
   is_Some (r2.1 !! Buffer_toString_hex bytes_c0ffee00)).
Proof.
  apply (post_pastes_drawing_twice (C:=demo_cipher) ∅ 0 1 bytes_deadbeef
           bytes_c0ffee00 "salt" "salt" body_burn body_plain).
  reflexivity.
Defined.

Lemma not_live_is_final_witness :
  get_paste (C:=demo_cipher)
    (run (C:=demo_cipher) st_expired other_requests).1 20 "0ld0ld00" None
  = ((run (C:=demo_cipher) st_expired other_requests).1, NotFoundError) ∧
  get_preview (run (C:=demo_cipher) st_expired other_requests).1 20
    "0ld0ld00"
  = ((run (C:=demo_cipher) st_expired other_requests).1, NotFoundError) ∧
  (table_ok st_expired →
   "0ld0ld00" ∉ listed_ids
     (get_pastes (run (C:=demo_cipher) st_expired other_requests).1 20).2).
Proof.
  apply (not_live_is_final (C:=demo_cipher) st_expired other_requests
           "0ld0ld00" row_expired 10 20 None).
  - reflexivity.
  - reflexivity.
  - lia.
Defined.
